(** * The simplesat benchmark runner ([bench/runner.py])

    A shallow embedding of the benchmark harness: the script walks the
    given folders, runs the solver binary on every [*.cnf] file under a
    timeout, and writes one CSV row per instance.

    The harness is all input/output, so the embedding threads an explicit
    [World] (platform, directory tree, file contents, the open file
    object with the text it has not written out yet, the monotonic clock,
    the behaviour of the child processes and what launching and waiting
    for them costs) through an exception monad, and keeps a trace of the
    calls the statements below are about. *)

From Stdlib Require Import Ascii QArith_base.
From stdpp Require Import base strings list gmap pretty.

Local Close Scope Q_scope.
Local Open Scope Z_scope.

(** ** Paths ([pathlib.PurePath])

    A path is the tuple of its [parts]; an absolute path starts with the
    part ["/"], and [Path('.')] has no part at all. *)

Abbreviation Path := (list string).

Module PurePath.

Definition root : Path := ["/"].

(** [s.split('/')] *)
Fixpoint split_slash (s : string) : list string :=
  match s with
  | EmptyString => [EmptyString]
  | String c s' =>
      if decide (c = "/"%char) then EmptyString :: split_slash s'
      else match split_slash s' with
           | [] => [String c EmptyString]
           | x :: xs => String c x :: xs
           end
  end.

(** A component that is kept: not empty and not ["."]. *)
Definition kept (c : string) : bool :=
  negb (String.eqb c "") && negb (String.eqb c ".").

(** [PurePath(s)] on a POSIX host: a leading slash gives the root, empty
    and ["."] components are dropped, [".."] is kept. *)
Definition parse (s : string) : Path :=
  (match s with
   | String c _ => if decide (c = "/"%char) then root else []
   | EmptyString => []
   end ++ List.filter kept (split_slash s))%list.

(** [p.parent] *)
Definition parent (p : Path) : Path :=
  if decide (p = root) then root else removelast p.

(** [p.name] *)
Definition name (p : Path) : string :=
  if decide (p = root) then "" else List.last p "".

(** [p / child] *)
Definition joinpath (p : Path) (child : string) : Path := p ++ [child].

Fixpoint join (sep : string) (l : list string) : string :=
  match l with
  | [] => ""
  | [x] => x
  | x :: rest => x +:+ sep +:+ join sep rest
  end.

Definition render (sep : string) (p : Path) : string :=
  match p with
  | [] => "."
  | x :: rest => if decide (x = "/") then sep +:+ join sep rest else join sep p
  end.

(** [p.as_posix()]: always forward slashes. *)
Definition as_posix (p : Path) : string := render "/" p.

(** [str(p)]: the separator of the host. *)
Definition str (system : string) (p : Path) : string :=
  render (if decide (system = "Windows") then "\" else "/") p.

(** Index of the last ['.'] of a name, [str.rfind]; [None] for -1. *)
Fixpoint rfind_dot (s : string) (i : nat) : option nat :=
  match s with
  | EmptyString => None
  | String c s' =>
      match rfind_dot s' (S i) with
      | Some j => Some j
      | None => if decide (c = "."%char) then Some i else None
      end
  end.

(** [p.suffix]: the part of the name from its last dot, unless that dot
    is the first or the last character. *)
Definition suffix (p : Path) : string :=
  let n := name p in
  match rfind_dot n 0 with
  | Some i =>
      if decide (0 < i < String.length n - 1)%nat
      then String.substring i (String.length n - i) n else ""
  | None => ""
  end.

(** [p.with_suffix(s)] (for a path with a name). *)
Definition with_suffix (p : Path) (s : string) : Path :=
  let n := name p in
  let old := suffix p in
  let stem := String.substring 0 (String.length n - String.length old) n in
  removelast p ++ [stem +:+ s].

(** [c.lower()] for an ASCII character; the other bytes are left alone. *)
Definition lower (c : ascii) : ascii :=
  let n := nat_of_ascii c in
  if decide (65 ≤ n ≤ 90)%nat then ascii_of_nat (n + 32) else c.

(** [s.lower()] *)
Fixpoint casefold (s : string) : string :=
  match s with
  | EmptyString => EmptyString
  | String c s' => String (lower c) (casefold s')
  end.

(** [fnmatch] for the patterns made of literal characters, [?] and [*]. *)
Fixpoint fnmatch (pat : string) : string → bool :=
  match pat with
  | EmptyString => λ s, bool_decide (s = "")
  | String c pat' =>
      if decide (c = "*"%char) then
        fix star (s : string) : bool :=
          fnmatch pat' s ||
          match s with EmptyString => false | String _ s' => star s' end
      else
        λ s, match s with
             | EmptyString => false
             | String d s' =>
                 (bool_decide (c = "?"%char) || bool_decide (c = d))
                 && fnmatch pat' s'
             end
  end.

End PurePath.

(** ** Text helpers: [csv] rows *)

Module Csv.

Definition quotechar : ascii := ascii_of_nat 34.
Definition delimiter : ascii := ","%char.
Definition cr : ascii := ascii_of_nat 13.
Definition lf : ascii := ascii_of_nat 10.
Definition lineterminator : string := String cr (String lf EmptyString).

(** [QUOTE_MINIMAL]: a field is quoted when it holds the delimiter, the
    quote character or a character of the line terminator. *)
Fixpoint needs_quotes (s : string) : bool :=
  match s with
  | EmptyString => false
  | String c s' =>
      bool_decide (c = delimiter) || bool_decide (c = quotechar)
      || bool_decide (c = cr) || bool_decide (c = lf) || needs_quotes s'
  end.

(** [doublequote=True]: a quote character inside a field is written twice. *)
Fixpoint escape (s : string) : string :=
  match s with
  | EmptyString => EmptyString
  | String c s' =>
      if decide (c = quotechar) then String c (String c (escape s'))
      else String c (escape s')
  end.

Definition field (s : string) : string :=
  if needs_quotes s
  then String quotechar (escape s) +:+ String quotechar EmptyString
  else s.

(** The text [writer.writerow(row)] hands to the file object. *)
Definition line (row : list string) : string :=
  PurePath.join (String delimiter EmptyString) (field <$> row) +:+ lineterminator.

End Csv.

(** ** [datetime.timedelta] *)

Record timedelta := { days : Z; seconds : Z; microseconds : Z }.

(** [timedelta(seconds=s)], normalised as the constructor does. *)
Definition timedelta_of_seconds (s : Z) : timedelta :=
  {| days := s `div` 86400; seconds := s `mod` 86400; microseconds := 0 |}.

Definition TIMEOUT : timedelta := timedelta_of_seconds 30.

(** ** The world the harness runs in *)

Inductive Kind := RegularFile | Directory (readable : bool).

#[global] Instance Kind_eq_dec : EqDecision Kind.
Proof. solve_decision. Defined.

(** What a launched solver does, and what the launch and the wait cost;
    an oracle of the environment.
    - [launch_ns]: the time it takes to create the child, from the call
      of [subprocess.run] to the start of the countdown of the timeout;
    - [lifetime_ns]: how long after the start of the countdown the child
      exits;
    - [late_ns]: the time the call takes beyond that: the parent polls
      the child, sleeping 1 to 50 ms between two polls, so it notices an
      exit with a delay; after a timeout it kills the child and waits for
      it to be gone.
    [HarnessKilled]: the harness itself is killed (SIGKILL) while it waits
    for that child. *)
Inductive Child :=
  | Exits (launch_ns lifetime_ns late_ns : N) (returncode : Z)
  | Hangs (launch_ns late_ns : N)
  | CannotSpawn
  | HarnessKilled.

(** A file object opened for writing text: a [TextIOWrapper] over a
    [BufferedWriter] over the file. *)
Record FileObject := mkFile {
  pending : string;       (* text the [TextIOWrapper] holds back *)
  raw_buffer : string }.  (* bytes in the buffer of the [BufferedWriter] *)

Inductive Event :=
  | EResolve (p : Path)                      (* [get_executable_path()] returned [p] *)
  | EIsFile (p : Path) (b : bool)            (* [p.is_file()] returned [b] *)
  | ESpawn (argv : list string) (timeout : Z) (* a child process was created *)
  | EWriteRow (row : list string).           (* [writer.writerow(row)] returned *)

#[global] Instance Event_eq_dec : EqDecision Event.
Proof. solve_decision. Defined.

Record World := mkWorld {
  system : string;                     (* [platform.system()] *)
  tree : list (Path * Kind);           (* directory entries, in listing order *)
  data : gmap Path string;             (* what is on disk in each regular file *)
  buffers : gmap Path FileObject;      (* the open file objects *)
  clock : Z;                           (* [time.perf_counter_ns()] *)
  children : nat → list string → Child; (* behaviour of the n-th launched child *)
  spawned : nat;
  trace : list Event;
  blksize : Z }.                       (* [st_blksize] of the files, where there is one *)

Definition set_tree (t : list (Path * Kind)) (w : World) : World :=
  mkWorld (system w) t (data w) (buffers w) (clock w) (children w) (spawned w) (trace w) (blksize w).
Definition set_data (d : gmap Path string) (w : World) : World :=
  mkWorld (system w) (tree w) d (buffers w) (clock w) (children w) (spawned w) (trace w) (blksize w).
Definition set_buffers (b : gmap Path FileObject) (w : World) : World :=
  mkWorld (system w) (tree w) (data w) b (clock w) (children w) (spawned w) (trace w) (blksize w).
Definition advance (ns : Z) (w : World) : World :=
  mkWorld (system w) (tree w) (data w) (buffers w) (clock w + ns) (children w) (spawned w) (trace w) (blksize w).
Definition count_spawn (w : World) : World :=
  mkWorld (system w) (tree w) (data w) (buffers w) (clock w) (children w) (S (spawned w)) (trace w) (blksize w).
Definition log (e : Event) (w : World) : World :=
  mkWorld (system w) (tree w) (data w) (buffers w) (clock w) (children w) (spawned w) (trace w ++ [e]) (blksize w).

(** ** Exceptions and the monad of the harness *)

Inductive Exn :=
  | AssertionError (msg : string)
  | TimeoutExpired
  | OSError (what : string)
  | ValueError (what : string).

(** [Die]: the process was killed; no handler and no [with] exit runs. *)
Inductive Res (A : Type) := Ok (a : A) | Raise (e : Exn) | Die.
Arguments Ok {A} a.
Arguments Raise {A} e.
Arguments Die {A}.

Definition M (A : Type) : Type := World → Res A * World.

Definition ret {A} (a : A) : M A := λ w, (Ok a, w).
Definition raise {A} (e : Exn) : M A := λ w, (Raise e, w).
Definition bind {A B} (m : M A) (k : A → M B) : M B :=
  λ w, match m w with
       | (Ok a, w') => k a w'
       | (Raise e, w') => (Raise e, w')
       | (Die, w') => (Die, w')
       end.

Declare Scope harness_scope.
Delimit Scope harness_scope with harness.
Notation "x <- c ;; k" := (bind c (λ x, k))
  (at level 100, c at next level, right associativity) : harness_scope.
Notation "c ;; k" := (bind c (λ _, k))
  (at level 100, right associativity) : harness_scope.
Local Open Scope harness_scope.

(** [try: body except TimeoutExpired: handler] *)
Definition try_except_TimeoutExpired {A} (body handler : M A) : M A :=
  λ w, match body w with
       | (Raise TimeoutExpired, w') => handler w'
       | rw => rw
       end.

(** [try: body finally: cleanup]; a killed process runs no cleanup. *)
Definition try_finally {A} (body : M A) (cleanup : M unit) : M A :=
  λ w, match body w with
       | (Die, w') => (Die, w')
       | (r, w') =>
           match cleanup w' with
           | (Ok _, w'') => (r, w'')
           | (Raise e, w'') => (Raise e, w'')
           | (Die, w'') => (Die, w'')
           end
       end.

(** [assert b, msg] *)
Definition assert_ (b : bool) (msg : string) : M unit :=
  if b then ret tt else raise (AssertionError msg).

(** [for x in l: body(x)] *)
Fixpoint for_ {A} (l : list A) (body : A → M unit) : M unit :=
  match l with
  | [] => ret tt
  | x :: l' => body x ;; for_ l' body
  end.

(** [tqdm(it)] yields the items of [it] unchanged; its progress bar goes
    to the terminal and is left out. *)
Definition tqdm {A} (it : A) : A := it.

(** ** The file system and the file object *)

Module Fs.

Definition kind_of (t : list (Path * Kind)) (p : Path) : option Kind :=
  snd <$> List.find (λ e, bool_decide (e.1 = p)) t.

Definition is_file (t : list (Path * Kind)) (p : Path) : bool :=
  bool_decide (kind_of t p = Some RegularFile).

Definition is_dir (t : list (Path * Kind)) (p : Path) : bool :=
  match kind_of t p with Some (Directory _) => true | _ => false end.

(** The names listed in directory [d], in the order of the tree. *)
Definition scandir (t : list (Path * Kind)) (d : Path) : list string :=
  omap (λ e : Path * Kind,
          if decide (PurePath.parent e.1 = d ∧ e.1 ≠ d)
          then Some (PurePath.name e.1) else None) t.

(** [flavour.compile_pattern(pat)]: the test a name is put to. The
    Windows flavour of pathlib compiles the pattern with [re.IGNORECASE],
    the POSIX flavour matches the names as they are. *)
Definition compile_pattern (sys : string) (pat : string) : string → bool :=
  if decide (sys = "Windows")
  then λ name, PurePath.fnmatch (PurePath.casefold pat) (PurePath.casefold name)
  else PurePath.fnmatch pat.

(** [d.glob(pat)] on the platform [sys], for a pattern without a
    separator: the entries of [d] whose name matches, files and
    directories alike, subdirectories not entered; nothing when [d] is
    missing, is no directory, or cannot be listed (pathlib swallows that
    error). *)
Definition glob (sys : string) (t : list (Path * Kind)) (d : Path) (pat : string)
  : list Path :=
  match kind_of t d with
  | Some (Directory true) =>
      PurePath.joinpath d <$> List.filter (compile_pattern sys pat) (scandir t d)
  | _ => []
  end.

(** [io.DEFAULT_BUFFER_SIZE] *)
Definition DEFAULT_BUFFER_SIZE : Z := 8192.

(** The text a [TextIOWrapper] holds back before it hands it to the
    buffer under it ([_CHUNK_SIZE]). *)
Definition CHUNK_SIZE : Z := 8192.

(** The size [open()] gives to the buffer of the [BufferedWriter]: the
    [st_blksize] of the file when the platform reports one greater than
    1 (Windows reports none), the default otherwise. *)
Definition buffer_size (w : World) : Z :=
  if decide (system w = "Windows") then DEFAULT_BUFFER_SIZE
  else if decide (1 < blksize w) then blksize w
  else DEFAULT_BUFFER_SIZE.

Definition on_disk (w : World) (p : Path) : string := default "" (data w !! p).

End Fs.

(** [p.is_file()]: [False] for what is missing or is no regular file.
    The directories on the way to [p] are taken to be searchable, so that
    the [stat] behind the call fails for a missing entry only. *)
Definition Path_is_file (p : Path) : M bool :=
  λ w, let b := Fs.is_file (tree w) p in (Ok b, log (EIsFile p b) w).

(** [p.is_dir()] *)
Definition Path_is_dir (p : Path) : M bool :=
  λ w, (Ok (Fs.is_dir (tree w) p), w).

(** [p.mkdir()]: no [parents], no [exist_ok]. *)
Definition Path_mkdir (p : Path) : M unit :=
  λ w, if decide (is_Some (Fs.kind_of (tree w) p))
       then (Raise (OSError "FileExistsError"), w)
       else if Fs.is_dir (tree w) (PurePath.parent p)
       then (Ok tt, set_tree (tree w ++ [(p, Directory true)])%list w)
       else (Raise (OSError "FileNotFoundError"), w).

(** [p.glob(pat)]; the directory is listed when the loop reaches it. *)
Definition Path_glob (p : Path) (pat : string) : M (list Path) :=
  λ w, (Ok (Fs.glob (system w) (tree w) p pat), w).

(** [p.open('w', newline='')]: creates or truncates the file; the file
    object is named by its path. *)
Definition Path_open_w (p : Path) : M Path :=
  λ w, match Fs.kind_of (tree w) p with
       | Some (Directory _) => (Raise (OSError "IsADirectoryError"), w)
       | k =>
           if Fs.is_dir (tree w) (PurePath.parent p) then
             let t := if k is None then (tree w ++ [(p, RegularFile)])%list else tree w in
             (Ok p, set_buffers (<[p := mkFile "" ""]> (buffers w))
                      (set_data (<[p := ""]> (data w)) (set_tree t w)))
           else (Raise (OSError "FileNotFoundError"), w)
       end.

(** [BufferedWriter.write(b)], on a file that holds [disk] and a buffer
    of [size] bytes that holds [raw]: bytes that fit in the buffer are put
    there; otherwise the buffer is written out first, and the bytes follow
    it to the file when they are more than a buffer, or are put in the
    emptied buffer. The result is the new [(disk, raw)]. *)
Definition buffered_write (size : Z) (b : string) (disk raw : string) : string * string :=
  if decide (Z.of_nat (String.length b) ≤ size - Z.of_nat (String.length raw))
  then (disk, raw +:+ b)
  else if decide (size < Z.of_nat (String.length b))
  then (disk +:+ raw +:+ b, "")
  else (disk +:+ raw, b).

(** [f.write(s)] on the text file object: the text is held back until
    [Fs.CHUNK_SIZE] bytes have come together. Text that would take what
    is held back beyond that size is not added to it: what is held back
    is handed to the buffered writer first. Nothing in [runner.py]
    flushes the file object. Lengths are counted in bytes. *)
Definition file_write (f : Path) (s : string) : M unit :=
  λ w, match buffers w !! f with
       | None => (Raise (ValueError "I/O operation on closed file."), w)
       | Some o =>
           let size := Fs.buffer_size w in
           let '(disk1, raw1, pending1) :=
             if decide (pending o ≠ ""
                        ∧ Fs.CHUNK_SIZE
                          < Z.of_nat (String.length (pending o)) + Z.of_nat (String.length s))
             then (buffered_write size (pending o) (Fs.on_disk w f) (raw_buffer o), "")
             else (Fs.on_disk w f, raw_buffer o, pending o) in
           let pending2 := pending1 +:+ s in
           let '(disk3, raw3, pending3) :=
             if decide (Fs.CHUNK_SIZE ≤ Z.of_nat (String.length pending2))
             then (buffered_write size pending2 disk1 raw1, "")
             else (disk1, raw1, pending2) in
           (Ok tt, set_buffers (<[f := mkFile pending3 raw3]> (buffers w))
                     (set_data (<[f := disk3]> (data w)) w))
       end.

(** [f.close()]: what is held back and what is in the buffer goes to the
    file. *)
Definition file_close (f : Path) : M unit :=
  λ w, match buffers w !! f with
       | None => (Ok tt, w)
       | Some o =>
           (Ok tt, set_buffers (delete f (buffers w))
                     (set_data (<[f := Fs.on_disk w f +:+ raw_buffer o +:+ pending o]>
                                  (data w)) w))
       end.

(** [with p.open('w', newline='') as f: body(f)] *)
Definition with_open_w {A} (p : Path) (body : Path → M A) : M A :=
  f <- Path_open_w p ;; try_finally (body f) (file_close f).

(** [csv.writer(f).writerow(row)]: one [write] of the text of the row.
    The text is taken to be encodable: the names of the tree are text of
    the encoding of the locale. *)
Definition writerow (f : Path) (row : list string) : M unit :=
  file_write f (Csv.line row) ;; λ w, (Ok tt, log (EWriteRow row) w).

(** ** [subprocess] and [time] *)

Definition perf_counter_ns : M Z := λ w, (Ok (clock w), w).

Definition NS_PER_SECOND : Z := 1000000000.

(** [subprocess.run(argv, timeout=t, stdout=DEVNULL, stderr=DEVNULL)]:
    creates the child ([Popen]), then waits for it
    ([communicate(timeout=t)]): the countdown of [t] seconds starts once
    the child has been created. A child that exits before the countdown
    is over is noticed at the next poll, and its exit code is returned.
    Otherwise the child is killed and waited for, and [TimeoutExpired] is
    raised. The monotonic clock moves on by all of it: the launch, the
    wait, and what follows the wait. The countdown is taken to end on
    time: a child that is still running when the [t] seconds are over has
    timed out. *)
Definition subprocess_run (argv : list string) (timeout : Z) : M Z :=
  λ w, match children w (spawned w) argv with
       | CannotSpawn => (Raise (OSError "PermissionError"), count_spawn w)
       | HarnessKilled => (Die, log (ESpawn argv timeout) (count_spawn w))
       | Hangs launch late =>
           (Raise TimeoutExpired,
            advance (Z.of_N launch + timeout * NS_PER_SECOND + Z.of_N late)
              (log (ESpawn argv timeout) (count_spawn w)))
       | Exits launch ns late code =>
           if decide (Z.of_N ns ≤ timeout * NS_PER_SECOND)
           then (Ok code,
                 advance (Z.of_N launch + Z.of_N ns + Z.of_N late)
                   (log (ESpawn argv timeout) (count_spawn w)))
           else (Raise TimeoutExpired,
                 advance (Z.of_N launch + timeout * NS_PER_SECOND + Z.of_N late)
                   (log (ESpawn argv timeout) (count_spawn w)))
       end.

(** ** The harness: [runner.py] *)

(** [platform.system()] *)
Definition platform_system : M string := λ w, (Ok (system w), w).

Definition SOLVER_BINARY : Path := PurePath.parse "../target/release/simplesat".

Definition executable_path_on (sys : string) : Path :=
  if decide (sys = "Windows")
  then PurePath.with_suffix SOLVER_BINARY ".exe"
  else SOLVER_BINARY.

Definition get_executable_path : M Path :=
  sys <- platform_system ;;
  let p := executable_path_on sys in
  λ w, (Ok p, log (EResolve p) w).

(** [str(x)] for [x : Optional[int]] *)
Definition str_optional_int (x : option Z) : string :=
  match x with
  | None => "None"
  | Some n => pretty n
  end.

(** [sys] is only read to render paths as [str] does on this host. *)
Definition solve (instance_file : Path) : M (option Z) :=
  sys <- platform_system ;;
  is_inst <- Path_is_file instance_file ;;
  assert_ is_inst
    ("Instance file '" +:+ PurePath.str sys instance_file +:+ "' does not exist.") ;;
  solver_binary <- get_executable_path ;;
  is_bin <- Path_is_file solver_binary ;;
  assert_ is_bin
    ("The solver binary '" +:+ PurePath.str sys solver_binary +:+ "' does not exist.") ;;
  try_except_TimeoutExpired
    (start <- perf_counter_ns ;;
     subprocess_run [PurePath.str sys solver_binary; PurePath.str sys instance_file]
       (seconds TIMEOUT) ;;
     stop <- perf_counter_ns ;;
     let duration := (stop - start) `div` 1000000 in
     ret (Some duration))
    (ret None).

Definition main (folders : list Path) (output_file : Path) : M unit :=
  has_dir <- Path_is_dir (PurePath.parent output_file) ;;
  (if negb has_dir then Path_mkdir (PurePath.parent output_file) else ret tt) ;;
  with_open_w output_file (λ f,
    for_ (tqdm folders) (λ folder,
      instances <- Path_glob folder "*.cnf" ;;
      for_ (tqdm instances) (λ instance_file,
        solve_time <- solve instance_file ;;
        writerow f [PurePath.as_posix instance_file; str_optional_int solve_time]))).

(** The timeout marker that the docstring of [main] documents:
    "or '-' in case of a timeout". *)
Definition documented_timeout_marker : string := "-".

(** [int(x)] for a non-integral number: truncation towards zero. *)
Definition int_of_real (x : Q) : Z := Z.quot (Qnum x) (Z.pos (Qden x)).

(** [Path(f"./results/benchmark-{int(time.time())}.csv")] *)
Definition default_output_file (time_time : Q) : Path :=
  PurePath.parse ("./results/benchmark-" +:+ pretty (int_of_real time_time) +:+ ".csv").

(** The script body: [--output_file] is optional, [folders] is [nargs='+']
    (argparse exits with status 2 when no folder is given). *)
Inductive ScriptResult := Finished (r : Res unit) | UsageError.

Definition script (time_time : Q) (output_flag : option Path) (folders : list Path)
  : World → ScriptResult * World :=
  λ w, match folders with
       | [] => (UsageError, w)
       | _ =>
           let (r, w') := main folders (default (default_output_file time_time) output_flag) w in
           (Finished r, w')
       end.

(** Exit status of the interpreter. *)
Definition exit_status (r : ScriptResult) : Z :=
  match r with
  | Finished (Ok _) => 0
  | Finished (Raise _) => 1
  | Finished Die => 137
  | UsageError => 2
  end.

(** ** Vocabulary of the statements *)

(** The body of the inner loop of [main]. *)
Definition record_instance (f : Path) (instance_file : Path) : M unit :=
  solve_time <- solve instance_file ;;
  writerow f [PurePath.as_posix instance_file; str_optional_int solve_time].

(** What [main] does before the loops: the parent directory and the log. *)
Definition open_log (output_file : Path) : M Path :=
  has_dir <- Path_is_dir (PurePath.parent output_file) ;;
  (if negb has_dir then Path_mkdir (PurePath.parent output_file) else ret tt) ;;
  Path_open_w output_file.

(** The instance files the two loops of [main] go through on the
    platform [sys], over a tree that does not change while they run. *)
Definition enumerate (sys : string) (t : list (Path * Kind)) (folders : list Path)
  : list Path :=
  flat_map (λ folder, Fs.glob sys t folder "*.cnf") folders.

(** The row of an instance and the result of [solve] for it. *)
Definition row_of (instance_file : Path) (solve_time : option Z) : list string :=
  [PurePath.as_posix instance_file; str_optional_int solve_time].

(** The command line of the child for an instance. *)
Definition argv_of (sys : string) (instance_file : Path) : list string :=
  [PurePath.str sys (executable_path_on sys); PurePath.str sys instance_file].

Definition rows_of (evs : list Event) : list (list string) :=
  omap (λ e, if e is EWriteRow row then Some row else None) evs.

Definition spawns_of (evs : list Event) : list (list string * Z) :=
  omap (λ e, if e is ESpawn argv t then Some (argv, t) else None) evs.

Definition resolves_of (evs : list Event) : list Path :=
  omap (λ e, if e is EResolve p then Some p else None) evs.

(** The text of a list of rows, as the writer lays it out. *)
Definition csv_text (rows : list (list string)) : string :=
  foldr (λ row acc, Csv.line row +:+ acc) "" rows.

(** What the file object holds: the bytes in its buffer, then the text
    held back. *)
Definition unflushed (o : FileObject) : string := raw_buffer o +:+ pending o.

(** Everything written to the file object [f] so far: what reached the
    disk, then what the file object still holds. *)
Definition written (w : World) (f : Path) : string :=
  Fs.on_disk w f +:+ default "" (unflushed <$> buffers w !! f).

(** A child that is still running when the timeout is over. *)
Definition outlives (timeout : Z) (c : Child) : Prop :=
  match c with
  | Hangs _ _ => True
  | Exits _ ns _ _ => timeout * NS_PER_SECOND < Z.of_N ns
  | _ => False
  end.

(** What a call of [subprocess.run] that ends in a timeout takes: the
    launch, the timeout, and the end of the child. *)
Definition timeout_cost (timeout : Z) (c : Child) : Z :=
  match c with
  | Hangs launch late | Exits launch _ late _ =>
      Z.of_N launch + timeout * NS_PER_SECOND + Z.of_N late
  | _ => 0
  end.

(** String prefix. *)
Definition starts_with (p s : string) : Prop := ∃ rest, s = p +:+ rest.

(** What a call leaves alone: the platform, the tree, the child oracle;
    and what it adds to the trace. *)
Record Frame (w w' : World) (evs : list Event) : Prop := {
  frame_system : system w' = system w;
  frame_tree : tree w' = tree w;
  frame_children : children w' = children w;
  frame_trace : trace w' = (trace w ++ evs)%list }.

(** The checks [solve] logs before it launches the child. *)
Definition checks_of (sys : string) (i : Path) : list Event :=
  [EIsFile i true; EResolve (executable_path_on sys);
   EIsFile (executable_path_on sys) true].

(** The ways one call of [solve] can go: its result, the events it
    logs, and the time it takes on the monotonic clock. *)
Inductive SolveCase (i : Path) (w : World) : Res (option Z) → list Event → Z → Prop :=
  | solve_no_instance msg :
      Fs.is_file (tree w) i = false →
      SolveCase i w (Raise (AssertionError msg)) [EIsFile i false] 0
  | solve_no_binary msg :
      Fs.is_file (tree w) i = true →
      Fs.is_file (tree w) (executable_path_on (system w)) = false →
      SolveCase i w (Raise (AssertionError msg))
        [EIsFile i true; EResolve (executable_path_on (system w));
         EIsFile (executable_path_on (system w)) false] 0
  | solve_cannot_spawn msg :
      Fs.is_file (tree w) i = true →
      Fs.is_file (tree w) (executable_path_on (system w)) = true →
      children w (spawned w) (argv_of (system w) i) = CannotSpawn →
      SolveCase i w (Raise (OSError msg)) (checks_of (system w) i) 0
  | solve_killed :
      Fs.is_file (tree w) i = true →
      Fs.is_file (tree w) (executable_path_on (system w)) = true →
      children w (spawned w) (argv_of (system w) i) = HarnessKilled →
      SolveCase i w Die
        (checks_of (system w) i ++ [ESpawn (argv_of (system w) i) 30]) 0
  | solve_timeout :
      Fs.is_file (tree w) i = true →
      Fs.is_file (tree w) (executable_path_on (system w)) = true →
      outlives 30 (children w (spawned w) (argv_of (system w) i)) →
      SolveCase i w (Ok None)
        (checks_of (system w) i ++ [ESpawn (argv_of (system w) i) 30])
        (timeout_cost 30 (children w (spawned w) (argv_of (system w) i)))
  | solve_exited launch ns late code :
      Fs.is_file (tree w) i = true →
      Fs.is_file (tree w) (executable_path_on (system w)) = true →
      children w (spawned w) (argv_of (system w) i) = Exits launch ns late code →
      Z.of_N ns ≤ 30 * NS_PER_SECOND →
      SolveCase i w
        (Ok (Some ((Z.of_N launch + Z.of_N ns + Z.of_N late) `div` 1000000)))
        (checks_of (system w) i ++ [ESpawn (argv_of (system w) i) 30])
        (Z.of_N launch + Z.of_N ns + Z.of_N late).

(** The ways the inner loop can go over a list of instances, on a fixed
    platform [sys] and tree [t]: the result and the events logged. *)
Inductive LoopTrace (sys : string) (t : list (Path * Kind))
  : list Path → Res unit → list Event → Prop :=
  | loop_done : LoopTrace sys t [] (Ok tt) []
  | loop_row i l solve_time r evs :
      Fs.is_file t i = true →
      Fs.is_file t (executable_path_on sys) = true →
      LoopTrace sys t l r evs →
      LoopTrace sys t (i :: l) r
        (checks_of sys i
         ++ [ESpawn (argv_of sys i) 30; EWriteRow (row_of i solve_time)] ++ evs)
  | loop_no_instance i l msg :
      Fs.is_file t i = false →
      LoopTrace sys t (i :: l) (Raise (AssertionError msg)) [EIsFile i false]
  | loop_no_binary i l msg :
      Fs.is_file t (executable_path_on sys) = false →
      LoopTrace sys t (i :: l) (Raise (AssertionError msg))
        [EIsFile i true; EResolve (executable_path_on sys);
         EIsFile (executable_path_on sys) false]
  | loop_cannot_spawn i l msg :
      Fs.is_file t (executable_path_on sys) = true →
      LoopTrace sys t (i :: l) (Raise (OSError msg)) (checks_of sys i)
  | loop_killed i l :
      Fs.is_file t (executable_path_on sys) = true →
      LoopTrace sys t (i :: l) Die
        (checks_of sys i ++ [ESpawn (argv_of sys i) 30]).

(** The first column of the rows. *)
Definition instance_column (rows : list (list string)) : list string :=
  (λ row, hd "" row) <$> rows.

(** How often [x] occurs in [l]. *)
Definition occurrences `{EqDecision A} (x : A) (l : list A) : nat :=
  length (filter (λ y, y = x) l).

(** ** Sample worlds *)

Definition demo_tree : list (Path * Kind) :=
  [([], Directory true);
   (SOLVER_BINARY, RegularFile);
   (["setA"], Directory true);
   (["setA"; "1.cnf"], RegularFile);
   (["setA"; "notes.txt"], RegularFile);
   (["setA"; "2.cnf"], RegularFile);
   (["setB"], Directory true);
   (["setB"; "1.cnf"], RegularFile);
   (["locked"], Directory false);
   (["locked"; "3.cnf"], RegularFile)].

(** The first child exits after 5 ms, the second never does, the others
    fail at once: launched, gone and noticed within a millisecond. *)
Definition demo_children (n : nat) (argv : list string) : Child :=
  match n with
  | 0%nat => Exits 300000 5000000 200000 0
  | 1%nat => Hangs 300000 4000000
  | _ => Exits 300000 400000 200000 1
  end.

Definition demo_world : World :=
  mkWorld "Linux" demo_tree ∅ ∅ 1000 demo_children 0 [] 4096.

Definition demo_out : Path := ["results"; "out.csv"].

(** The harness is killed while the second child runs. *)
Definition killed_world : World :=
  mkWorld "Linux" demo_tree ∅ ∅ 1000
    (λ n _, match n with
            | 0%nat => Exits 300000 5000000 200000 0
            | _ => HarnessKilled
            end) 0 [] 4096.

(** No solver binary has been built. *)
Definition unbuilt_tree : list (Path * Kind) :=
  [([], Directory true);
   (["empty"], Directory true);
   (["setA"], Directory true);
   (["setA"; "1.cnf"], RegularFile)].

Definition unbuilt_world : World :=
  mkWorld "Linux" unbuilt_tree ∅ ∅ 1000 demo_children 0 [] 4096.

(** A world in the middle of a run: the log is open. *)
Definition running_world : World := (open_log demo_out demo_world).2.

(** The same, when the next child to be launched never exits. *)
Definition hanging_world : World :=
  mkWorld (system running_world) (tree running_world) (data running_world)
    (buffers running_world) (clock running_world) (λ _ _, Hangs 300000 4000000) 0 []
    (blksize running_world).

(** A child that exits 29.999 s after it has been created: the launch
    takes 3 ms, and the exit is seen at the last poll, 2 ms later. *)
Definition slow_world : World :=
  mkWorld "Linux" demo_tree ∅ ∅ 1000
    (λ _ _, Exits 3000000 29999000000 2000000 0) 0 [] 4096.

(** A child that is gone 0.4 ms after it has been created, where the
    launch takes 0.7 ms and the exit is noticed 0.6 ms late. *)
Definition quick_world : World :=
  mkWorld "Linux" demo_tree ∅ ∅ 7 (λ _ _, Exits 700000 400000 600000 0) 0 [] 4096.

(** The same child on a faster host: launched, gone and noticed in
    0.9 ms; it fails. *)
Definition brisk_world : World :=
  mkWorld "Linux" demo_tree ∅ ∅ 7 (λ _ _, Exits 300000 400000 200000 3) 0 [] 4096.

(** What [solve] returns for an instance in a world. *)
Definition solve_time_of (w : World) (i : Path) : Res (option Z) := (solve i w).1.

(** A text without a slash. *)
Fixpoint no_slash (s : string) : Prop :=
  match s with
  | EmptyString => True
  | String c s' => c ≠ "/"%char ∧ no_slash s'
  end.

(** [s] ends with [suffix]. *)
Definition ends_with (suffix s : string) : Prop := ∃ stem, s = stem +:+ suffix.

(** The same child, its exit code forgotten. *)
Definition forget_returncode (c : Child) : Child :=
  match c with
  | Exits launch ns late _ => Exits launch ns late 0
  | other => other
  end.

(** The same world, where every child exits with code 0 when it exits. *)
Definition forget_returncodes (w : World) : World :=
  mkWorld (system w) (tree w) (data w) (buffers w) (clock w)
    (λ n argv, forget_returncode (children w n argv)) (spawned w) (trace w) (blksize w).

(** A computation that cannot tell the exit codes of the children. *)
Definition Blind {A} (m : M A) : Prop :=
  ∀ w, m (forget_returncodes w) = ((m w).1, forget_returncodes (m w).2).

(** A tree with a directory named like an instance, and an old log. *)
Definition odd_tree : list (Path * Kind) :=
  [([], Directory true);
   (SOLVER_BINARY, RegularFile);
   (["setA"], Directory true);
   (["setA"; "1.cnf"], RegularFile);
   (["setA"; "dir.cnf"], Directory true);
   (["setA"; "2.cnf"], RegularFile);
   (["results"], Directory true);
   (["results"; "out.csv"], RegularFile);
   (["plain"], RegularFile)].

Definition odd_world : World :=
  mkWorld "Linux" odd_tree {[ ["results"; "out.csv"] := "old text" ]} ∅ 1000
    (λ _ _, Exits 300000 2500000 100000 0) 0 [] 4096.

(** Rows of 20 and of 215 bytes. *)
Definition short_row : list string := ["setA/0000001.cnf"; "5"].

Definition long_row : list string :=
  ["benchmarks/uniform-random-3-sat/satisfiable/" +:+
   "uf250-1065/a-directory-with-a-long-name-for-the-instances-of-the-run/" +:+
   "and-one-more-level-to-make-the-path-of-the-file-long-enough/" +:+
   "uf250-01000-variables-1065-clauses.cnf"; "5"].

(** A folder whose names differ in case. *)
Definition mixed_case_tree : list (Path * Kind) :=
  [([], Directory true);
   (["setA"], Directory true);
   (["setA"; "a.cnf"], RegularFile);
   (["setA"; "B.CNF"], RegularFile);
   (["setA"; "c.Cnf"], RegularFile);
   (["setA"; "d.cnf2"], RegularFile)].

(** The solver binary cannot be executed. *)
Definition locked_binary_world : World :=
  mkWorld "Linux" demo_tree ∅ ∅ 1000
    (λ n _, match n with
            | 0%nat => Exits 300000 5000000 200000 0
            | _ => CannotSpawn
            end) 0 [] 4096.

(** * Properties *)

(** ** Paths and rows on examples *)

Example parse_examples :
  PurePath.parse "./results/benchmark-17.csv" = ["results"; "benchmark-17.csv"]
  ∧ PurePath.parse "/data//sat/./uf20" = ["/"; "data"; "sat"; "uf20"]
  ∧ PurePath.parse "." = []
  ∧ SOLVER_BINARY = [".."; "target"; "release"; "simplesat"].
Proof. vm_compute. done. Qed.

Example parent_examples :
  PurePath.parent ["results"; "out.csv"] = ["results"]
  ∧ PurePath.parent ["out.csv"] = []
  ∧ PurePath.parent [] = []
  ∧ PurePath.parent ["/"] = ["/"].
Proof. vm_compute. done. Qed.

Example as_posix_examples :
  PurePath.as_posix ["bench"; "a.cnf"] = "bench/a.cnf"
  ∧ PurePath.as_posix ["/"; "data"; "a.cnf"] = "/data/a.cnf"
  ∧ PurePath.as_posix [] = "."
  ∧ PurePath.str "Windows" ["bench"; "a.cnf"] = "bench\a.cnf".
Proof. vm_compute. done. Qed.

Example executable_path_examples :
  executable_path_on "Linux" = [".."; "target"; "release"; "simplesat"]
  ∧ executable_path_on "Windows" = [".."; "target"; "release"; "simplesat.exe"]
  ∧ PurePath.with_suffix ["a"; "b.tar.gz"] ".exe" = ["a"; "b.tar.exe"].
Proof. vm_compute. done. Qed.

Example fnmatch_examples :
  PurePath.fnmatch "*.cnf" "uf20-01.cnf" = true
  ∧ PurePath.fnmatch "*.cnf" ".cnf" = true
  ∧ PurePath.fnmatch "*.cnf" "uf20.cnf.gz" = false
  ∧ PurePath.fnmatch "*.cnf" "cnf" = false.
Proof. vm_compute. done. Qed.

Example glob_examples :
  Fs.glob "Linux" demo_tree ["setA"] "*.cnf" = [["setA"; "1.cnf"]; ["setA"; "2.cnf"]]
  ∧ Fs.glob "Linux" demo_tree ["locked"] "*.cnf" = []
  ∧ Fs.glob "Linux" demo_tree ["missing"] "*.cnf" = []
  ∧ Fs.glob "Linux" demo_tree ["setA"; "1.cnf"] "*.cnf" = [].
Proof. vm_compute. done. Qed.

Example csv_examples :
  Csv.line ["setA/1.cnf"; "5"]
  = "setA/1.cnf,5" +:+ Csv.lineterminator
  ∧ Csv.field "a,b.cnf"
    = String Csv.quotechar ("a,b.cnf" +:+ String Csv.quotechar "")
  ∧ Csv.field "None" = "None".
Proof. vm_compute. done. Qed.

(** ** Strings and lists *)

Lemma string_app_cons (x : ascii) (a b : string) :
  String x a +:+ b = String x (a +:+ b).
Proof. reflexivity. Qed.

Lemma string_app_assoc (a b c : string) : (a +:+ b) +:+ c = a +:+ (b +:+ c).
Proof.
  induction a as [|x a IH]; [done|].
  by rewrite !string_app_cons, IH.
Qed.

Lemma string_app_nil_r (a : string) : a +:+ "" = a.
Proof.
  induction a as [|x a IH]; [done|].
  by rewrite string_app_cons, IH.
Qed.

Lemma string_app_length (a b : string) :
  String.length (a +:+ b) = (String.length a + String.length b)%nat.
Proof.
  induction a as [|x a IH]; [done|].
  rewrite string_app_cons. simpl. by rewrite IH.
Qed.

Lemma string_app_inv_tail (a b s : string) : a +:+ s = b +:+ s → a = b.
Proof.
  revert b. induction a as [|x a IH]; intros [|y b] H.
  - done.
  - apply (f_equal String.length) in H.
    rewrite !string_app_length in H. simpl in H. lia.
  - apply (f_equal String.length) in H.
    rewrite !string_app_length in H. simpl in H. lia.
  - rewrite !string_app_cons in H. injection H as -> H. f_equal. by apply IH.
Qed.

Lemma csv_text_app (r1 r2 : list (list string)) :
  csv_text (r1 ++ r2) = csv_text r1 +:+ csv_text r2.
Proof.
  induction r1 as [|r r1 IH]; [done|].
  change (Csv.line r +:+ csv_text (r1 ++ r2)
          = (Csv.line r +:+ csv_text r1) +:+ csv_text r2).
  by rewrite IH, string_app_assoc.
Qed.

Lemma rows_of_app (e1 e2 : list Event) : rows_of (e1 ++ e2) = (rows_of e1 ++ rows_of e2)%list.
Proof. apply omap_app. Qed.

Lemma spawns_of_app (e1 e2 : list Event) :
  spawns_of (e1 ++ e2) = (spawns_of e1 ++ spawns_of e2)%list.
Proof. apply omap_app. Qed.

Lemma resolves_of_app (e1 e2 : list Event) :
  resolves_of (e1 ++ e2) = (resolves_of e1 ++ resolves_of e2)%list.
Proof. apply omap_app. Qed.

Lemma starts_with_refl (s : string) : starts_with s s.
Proof. exists "". by rewrite string_app_nil_r. Qed.

Lemma starts_with_trans (a b c : string) :
  starts_with a b → starts_with b c → starts_with a c.
Proof. intros [r1 ->] [r2 ->]. exists (r1 +:+ r2). by rewrite string_app_assoc. Qed.

Lemma starts_with_app (a b : string) : starts_with a (a +:+ b).
Proof. by exists b. Qed.

(** ** One call of [solve] *)

Lemma timeout_seconds : seconds TIMEOUT = 30.
Proof. reflexivity. Qed.

Lemma solve_spec (i : Path) (w : World) :
  ∃ r evs dt w',
    solve i w = (r, w') ∧ SolveCase i w r evs dt ∧ Frame w w' evs
    ∧ data w' = data w ∧ buffers w' = buffers w ∧ clock w' = clock w + dt
    ∧ (r = Ok (Some ((clock w' - clock w) `div` 1000000)) ∨ ¬ ∃ d, r = Ok (Some d)).
Proof.
  unfold solve, bind, platform_system, Path_is_file, get_executable_path,
    assert_, try_except_TimeoutExpired, perf_counter_ns, subprocess_run, ret, raise.
  rewrite timeout_seconds. simpl.
  destruct (Fs.is_file (tree w) i) eqn:Hi; simpl.
  2:{ do 4 eexists. split; [done|]. split; [by constructor|].
      repeat split; simpl; try done; try lia. right. by intros [? ?]. }
  destruct (Fs.is_file (tree w) (executable_path_on (system w))) eqn:Hb; simpl.
  2:{ do 4 eexists. split; [done|]. split; [by constructor|].
      repeat split; simpl; try done; try lia.
      - by rewrite <- !(assoc_L (++)).
      - right. by intros [? ?]. }
  fold (argv_of (system w) i).
  destruct (children w (spawned w) (argv_of (system w) i))
    as [launch ns late code|launch late| |] eqn:Hc; simpl.
  - destruct (decide (Z.of_N ns ≤ 30 * NS_PER_SECOND)) as [Hle|Hgt]; simpl.
    + replace (clock w + (Z.of_N launch + Z.of_N ns + Z.of_N late) - clock w)
        with (Z.of_N launch + Z.of_N ns + Z.of_N late) by lia.
      do 4 eexists. split; [done|]. split; [by eapply solve_exited|].
      repeat split; simpl; try done; try lia.
      * by rewrite <- !(assoc_L (++)).
      * left. do 3 f_equal. lia.
    + do 4 eexists. split; [done|].
      split; [apply solve_timeout; try done; rewrite Hc; simpl; lia|].
      rewrite Hc. repeat split; simpl; try done; try lia.
      * by rewrite <- !(assoc_L (++)).
      * right. by intros [? ?].
  - do 4 eexists. split; [done|].
    split; [apply solve_timeout; try done; by rewrite Hc|].
    rewrite Hc. repeat split; simpl; try done; try lia.
    + by rewrite <- !(assoc_L (++)).
    + right. by intros [? ?].
  - do 4 eexists. split; [done|]. split; [by eapply solve_cannot_spawn|].
    repeat split; simpl; try done; try lia.
    + by rewrite <- !(assoc_L (++)).
    + right. by intros [? ?].
  - do 4 eexists. split; [done|]. split; [by eapply solve_killed|].
    repeat split; simpl; try done; try lia.
    + by rewrite <- !(assoc_L (++)).
    + right. by intros [? ?].
Qed.

(** ** One row *)

Lemma buffered_write_spec (size : Z) (b disk raw : string) :
  ∃ disk' raw',
    buffered_write size b disk raw = (disk', raw')
    ∧ disk' +:+ raw' = disk +:+ raw +:+ b
    ∧ starts_with disk disk'.
Proof.
  unfold buffered_write. repeat case_decide.
  - do 2 eexists. split; [done|]. split; [done | apply starts_with_refl].
  - do 2 eexists. split; [done|]. split; [|apply starts_with_app].
    by rewrite string_app_nil_r.
  - do 2 eexists. split; [done|]. split; [|apply starts_with_app].
    by rewrite string_app_assoc.
Qed.

Lemma file_write_spec (f : Path) (s : string) (w : World) (o : FileObject) :
  buffers w !! f = Some o →
  ∃ disk' o',
    file_write f s w
    = (Ok tt, set_buffers (<[f := o']> (buffers w)) (set_data (<[f := disk']> (data w)) w))
    ∧ disk' +:+ unflushed o' = Fs.on_disk w f +:+ unflushed o +:+ s
    ∧ starts_with (Fs.on_disk w f) disk'.
Proof.
  intros Hb. unfold file_write, unflushed. rewrite Hb.
  destruct (decide (pending o ≠ "" ∧ _)) as [Hflush|Hkeep].
  - destruct (buffered_write_spec (Fs.buffer_size w) (pending o) (Fs.on_disk w f)
                (raw_buffer o)) as (d1 & r1 & -> & Hcat1 & Hpre1).
    change ("" +:+ s) with s.
    destruct (decide (Fs.CHUNK_SIZE ≤ _)) as [Hfull|Hroom].
    + destruct (buffered_write_spec (Fs.buffer_size w) s d1 r1)
        as (d2 & r2 & -> & Hcat2 & Hpre2).
      exists d2, (mkFile "" r2). split; [done|]. simpl. split.
      * rewrite string_app_nil_r, Hcat2, <- string_app_assoc, Hcat1.
        by rewrite !string_app_assoc.
      * by eapply starts_with_trans.
    + exists d1, (mkFile s r1). split; [done|]. simpl. split; [|done].
      rewrite <- string_app_assoc, Hcat1. by rewrite !string_app_assoc.
  - destruct (decide (Fs.CHUNK_SIZE ≤ _)) as [Hfull|Hroom].
    + destruct (buffered_write_spec (Fs.buffer_size w) (pending o +:+ s) (Fs.on_disk w f)
                  (raw_buffer o)) as (d2 & r2 & -> & Hcat2 & Hpre2).
      exists d2, (mkFile "" r2). split; [done|]. simpl. split; [|done].
      rewrite string_app_nil_r, Hcat2. by rewrite !string_app_assoc.
    + exists (Fs.on_disk w f), (mkFile (pending o +:+ s) (raw_buffer o)).
      split; [done|]. simpl. split; [|apply starts_with_refl].
      by rewrite !string_app_assoc.
Qed.

Lemma writerow_spec (f : Path) (row : list string) (w : World) (o : FileObject) :
  buffers w !! f = Some o →
  ∃ w', writerow f row w = (Ok tt, w') ∧ Frame w w' [EWriteRow row]
        ∧ clock w' = clock w
        ∧ is_Some (buffers w' !! f)
        ∧ written w' f = written w f +:+ Csv.line row
        ∧ starts_with (Fs.on_disk w f) (Fs.on_disk w' f).
Proof.
  intros Hb.
  destruct (file_write_spec f (Csv.line row) w o Hb) as (disk' & o' & Hw & Hcat & Hpre).
  unfold writerow, bind. rewrite Hw.
  eexists. split; [done|]. split; [by split|]. split; [done|].
  unfold written, Fs.on_disk in *. simpl.
  rewrite !lookup_insert_eq, Hb. simpl.
  split; [by eexists|]. split; [|done].
  by rewrite Hcat, !string_app_assoc.
Qed.

(** ** The inner loop *)

Lemma loop_spec (f : Path) (l : list Path) (w : World) (b : FileObject) :
  buffers w !! f = Some b →
  ∃ r evs w',
    for_ l (record_instance f) w = (r, w') ∧ Frame w w' evs
    ∧ LoopTrace (system w) (tree w) l r evs
    ∧ is_Some (buffers w' !! f)
    ∧ written w' f = written w f +:+ csv_text (rows_of evs)
    ∧ starts_with (Fs.on_disk w f) (Fs.on_disk w' f).
Proof.
  revert w b. induction l as [|i l IH]; intros w b Hb.
  { exists (Ok tt), [], w. split; [done|]. split.
    { split; try done. by rewrite app_nil_r. }
    split; [constructor|]. split; [by eexists|]. split.
    - by rewrite string_app_nil_r.
    - apply starts_with_refl. }
  destruct (solve_spec i w) as (r & evs & dt & w1 & Hs & Hcase & [Hsys Htree Hch Htr]
                                 & Hdata & Hbuf & _ & _).
  assert (Hw1 : written w1 f = written w f ∧ Fs.on_disk w1 f = Fs.on_disk w f).
  { unfold written, Fs.on_disk. by rewrite Hdata, Hbuf. }
  destruct Hw1 as [Hwr Hdisk].
  cbn [for_]. unfold bind at 1. unfold record_instance at 1. unfold bind at 1.
  rewrite Hs.
  inversion Hcase; subst.
  - (* the instance is no file *)
    do 3 eexists. split; [done|]. split; [by split|].
    split; [by constructor|]. split; [by rewrite Hbuf, Hb; eexists|].
    split; [by rewrite Hwr, string_app_nil_r | by rewrite Hdisk; apply starts_with_refl].
  - (* the binary is no file *)
    do 3 eexists. split; [done|]. split; [by split|].
    split; [by constructor|]. split; [by rewrite Hbuf, Hb; eexists|].
    split; [by rewrite Hwr, string_app_nil_r | by rewrite Hdisk; apply starts_with_refl].
  - (* the child cannot be launched *)
    do 3 eexists. split; [done|]. split; [by split|].
    split; [by constructor|]. split; [by rewrite Hbuf, Hb; eexists|].
    split; [by rewrite Hwr, string_app_nil_r | by rewrite Hdisk; apply starts_with_refl].
  - (* the harness is killed *)
    do 3 eexists. split; [done|]. split; [by split|].
    split; [by constructor|]. split; [by rewrite Hbuf, Hb; eexists|].
    split; [by rewrite Hwr, string_app_nil_r | by rewrite Hdisk; apply starts_with_refl].
  - (* timeout: a row is written, the loop goes on *)
    destruct (writerow_spec f (row_of i None) w1 b) as
      (w2 & Hw & [Hsys2 Htree2 Hch2 Htr2] & _ & [b2 Hb2] & Hwr2 & Hpre2);
      [by rewrite Hbuf|].
    fold (row_of i None). rewrite Hw.
    destruct (IH w2 b2 Hb2) as (r & evs & w' & Hl & [Hsys3 Htree3 Hch3 Htr3] & Hlt
                                 & Hopen & Hwr3 & Hpre3).
    exists r, (checks_of (system w) i
               ++ [ESpawn (argv_of (system w) i) 30; EWriteRow (row_of i None)] ++ evs)%list, w'.
    split; [done|]. split.
    { split; try congruence.
      rewrite Htr3, Htr2, Htr. by rewrite <- !(assoc_L (++)). }
    split.
    { constructor; try done. by rewrite Hsys2, Hsys, Htree2, Htree in Hlt. }
    split; [done|]. split.
    + rewrite Hwr3, Hwr2, Hwr. rewrite !rows_of_app. simpl.
      by rewrite string_app_assoc.
    + rewrite <- Hdisk. by eapply starts_with_trans.
  - (* the child exited in time: a row is written, the loop goes on *)
    destruct (writerow_spec f (row_of i (Some ((Z.of_N launch + Z.of_N ns + Z.of_N late) `div` 1000000))) w1 b) as
      (w2 & Hw & [Hsys2 Htree2 Hch2 Htr2] & _ & [b2 Hb2] & Hwr2 & Hpre2);
      [by rewrite Hbuf|].
    fold (row_of i (Some ((Z.of_N launch + Z.of_N ns + Z.of_N late) `div` 1000000))). rewrite Hw.
    destruct (IH w2 b2 Hb2) as (r & evs & w' & Hl & [Hsys3 Htree3 Hch3 Htr3] & Hlt
                                 & Hopen & Hwr3 & Hpre3).
    exists r, (checks_of (system w) i
               ++ [ESpawn (argv_of (system w) i) 30;
                   EWriteRow (row_of i (Some ((Z.of_N launch + Z.of_N ns + Z.of_N late) `div` 1000000)))] ++ evs)%list, w'.
    split; [done|]. split.
    { split; try congruence.
      rewrite Htr3, Htr2, Htr. by rewrite <- !(assoc_L (++)). }
    split.
    { constructor; try done. by rewrite Hsys2, Hsys, Htree2, Htree in Hlt. }
    split; [done|]. split.
    + rewrite Hwr3, Hwr2, Hwr. rewrite !rows_of_app. simpl.
      by rewrite string_app_assoc.
    + rewrite <- Hdisk. by eapply starts_with_trans.
Qed.

(** ** The two loops as one *)

Lemma for_app {A} (a b : list A) (body : A → M unit) (w : World) :
  for_ (a ++ b) body w = (for_ a body ;; for_ b body) w.
Proof.
  revert w. induction a as [|x a IH]; intros w; [done|].
  cbn [for_ app]. unfold bind at 1 2 3.
  destruct (body x w) as [[[]|e|] w1]; [|done..].
  rewrite IH. done.
Qed.

Lemma record_instance_tree (f i : Path) (w : World) :
  tree (record_instance f i w).2 = tree w
  ∧ system (record_instance f i w).2 = system w.
Proof.
  destruct (solve_spec i w) as (r & evs & dt & w1 & Hs & _ & [Hsys Htree _ _] & _).
  unfold record_instance, bind. rewrite Hs.
  destruct r as [t|e|]; [|done..].
  unfold writerow, bind.
  destruct (buffers w1 !! f) as [o|] eqn:Hb.
  - by destruct (file_write_spec f (Csv.line [PurePath.as_posix i; str_optional_int t])
                  w1 o Hb) as (d & o' & -> & _).
  - unfold file_write. by rewrite Hb.
Qed.

Lemma for_tree (f : Path) (l : list Path) (w : World) :
  tree (for_ l (record_instance f) w).2 = tree w
  ∧ system (for_ l (record_instance f) w).2 = system w.
Proof.
  revert w. induction l as [|i l IH]; intros w; [done|].
  cbn [for_]. unfold bind.
  pose proof (record_instance_tree f i w) as [Hi Hs].
  destruct (record_instance f i w) as [[[]|e|] w1]; simpl in Hi, Hs; [|done..].
  destruct (IH w1) as [-> ->]. done.
Qed.

Lemma nested_loops_flat (f : Path) (folders : list Path) (w : World) :
  for_ folders (λ folder,
    instances <- Path_glob folder "*.cnf" ;;
    for_ instances (record_instance f)) w
  = for_ (enumerate (system w) (tree w) folders) (record_instance f) w.
Proof.
  revert w. induction folders as [|d folders IH]; intros w; [done|].
  cbn [for_ enumerate flat_map]. rewrite for_app.
  unfold bind at 1 2 4. unfold Path_glob at 1.
  pose proof (for_tree f (Fs.glob (system w) (tree w) d "*.cnf") w) as [Ht Hs].
  destruct (for_ (Fs.glob (system w) (tree w) d "*.cnf") (record_instance f) w)
    as [[[]|e|] w1]; simpl in Ht, Hs; [|done..].
  rewrite IH. unfold enumerate. by rewrite Ht, Hs.
Qed.

Lemma open_log_system (output_file : Path) (w : World) :
  system (open_log output_file w).2 = system w.
Proof.
  unfold open_log, bind, Path_is_dir, Path_mkdir, Path_open_w, ret.
  destruct (Fs.is_dir (tree w) (PurePath.parent output_file)); simpl.
  - by repeat case_match.
  - destruct (decide _); [done|].
    destruct (Fs.is_dir (tree w) (PurePath.parent (PurePath.parent output_file))); [|done].
    simpl. by repeat case_match.
Qed.

Lemma main_unfold_at (folders : list Path) (output_file : Path) (w : World) :
  main folders output_file w =
  match open_log output_file w with
  | (Ok f, w1) =>
      try_finally (for_ (enumerate (system w1) (tree w1) folders) (record_instance f))
        (file_close f) w1
  | (Raise e, w1) => (Raise e, w1)
  | (Die, w1) => (Die, w1)
  end.
Proof.
  unfold main, open_log, with_open_w, tqdm, bind, Path_is_dir.
  destruct (negb _).
  - destruct (Path_mkdir _ w) as [[[]|e|] w0]; [|done..].
    destruct (Path_open_w output_file w0) as [[f|e|] w1]; [|done..].
    unfold try_finally.
    change (for_ folders _ w1) with
      (for_ folders (λ folder, instances <- Path_glob folder "*.cnf" ;;
                               for_ instances (record_instance f)) w1).
    by rewrite nested_loops_flat.
  - unfold ret.
    destruct (Path_open_w output_file w) as [[f|e|] w1]; [|done..].
    unfold try_finally.
    change (for_ folders _ w1) with
      (for_ folders (λ folder, instances <- Path_glob folder "*.cnf" ;;
                               for_ instances (record_instance f)) w1).
    by rewrite nested_loops_flat.
Qed.

Lemma main_unfold (folders : list Path) (output_file : Path) (w : World) :
  main folders output_file w =
  match open_log output_file w with
  | (Ok f, w1) =>
      try_finally (for_ (enumerate (system w) (tree w1) folders) (record_instance f))
        (file_close f) w1
  | (Raise e, w1) => (Raise e, w1)
  | (Die, w1) => (Die, w1)
  end.
Proof.
  rewrite main_unfold_at. pose proof (open_log_system output_file w) as Hsys.
  destruct (open_log output_file w) as [[f|e|] w1]; simpl in Hsys; [|done..].
  by rewrite Hsys.
Qed.

(** ** Opening and closing the log *)

Lemma kind_of_snoc (t : list (Path * Kind)) (q p : Path) (k : Kind) :
  Fs.kind_of (t ++ [(q, k)]) p =
  match Fs.kind_of t p with
  | Some x => Some x
  | None => if decide (q = p) then Some k else None
  end.
Proof.
  unfold Fs.kind_of. induction t as [|[q' k'] t IH]; simpl.
  - case_bool_decide; by case_decide.
  - by case_bool_decide.
Qed.

Lemma open_w_spec (out : Path) (w : World) :
  ∃ r w1, Path_open_w out w = (r, w1)
    ∧ system w1 = system w ∧ children w1 = children w ∧ trace w1 = trace w
    ∧ match r with
      | Ok f =>
          f = out ∧ data w1 = <[out := ""]> (data w)
          ∧ buffers w1 = <[out := mkFile "" ""]> (buffers w)
          ∧ Fs.is_file (tree w1) out = true
          ∧ ∀ p, Fs.kind_of (tree w1) p = Fs.kind_of (tree w) p ∨ p = out
      | Raise e => (∃ m, e = OSError m) ∧ w1 = w
      | Die => False
      end.
Proof.
  unfold Path_open_w.
  destruct (Fs.kind_of (tree w) out) as [[|rd]|] eqn:Hk.
  - destruct (Fs.is_dir _ _).
    + do 2 eexists. split; [done|]. simpl. repeat split; try done.
      * unfold Fs.is_file. by rewrite Hk, bool_decide_eq_true.
      * by left.
    + do 2 eexists. split; [done|]. simpl. repeat split; try done. by eexists.
  - do 2 eexists. split; [done|]. simpl. repeat split; try done. by eexists.
  - destruct (Fs.is_dir _ _).
    + do 2 eexists. split; [done|]. simpl. repeat split; try done.
      * unfold Fs.is_file. rewrite kind_of_snoc, Hk, decide_True by done.
        by rewrite bool_decide_eq_true.
      * intros p. rewrite kind_of_snoc.
        destruct (Fs.kind_of (tree w) p); [by left|].
        case_decide; [by right | by left].
    + do 2 eexists. split; [done|]. simpl. repeat split; try done. by eexists.
Qed.

Lemma open_log_spec (out : Path) (w : World) :
  ∃ r w1, open_log out w = (r, w1)
    ∧ system w1 = system w ∧ children w1 = children w ∧ trace w1 = trace w
    ∧ match r with
      | Ok f =>
          f = out ∧ data w1 = <[out := ""]> (data w)
          ∧ buffers w1 = <[out := mkFile "" ""]> (buffers w)
          ∧ Fs.is_file (tree w1) out = true
          ∧ ∀ p, Fs.kind_of (tree w1) p = Fs.kind_of (tree w) p ∨ p = out
                 ∨ (p = PurePath.parent out ∧ Fs.kind_of (tree w) p = None
                    ∧ Fs.kind_of (tree w1) p = Some (Directory true))
      | Raise e => (∃ m, e = OSError m) ∧ data w1 = data w ∧ buffers w1 = buffers w
      | Die => False
      end.
Proof.
  unfold open_log, bind, Path_is_dir.
  destruct (Fs.is_dir (tree w) (PurePath.parent out)) eqn:Hd; simpl.
  - destruct (open_w_spec out w) as (r & w1 & -> & Hsys & Hch & Htr & Hr).
    exists r, w1. repeat split; try done.
    destruct r as [f|e|]; [|by destruct Hr as [? ->]|done].
    destruct Hr as (-> & ? & ? & ? & Hk). repeat split; try done.
    intros p. destruct (Hk p); auto.
  - unfold Path_mkdir.
    destruct (decide _) as [Hex|Hnew].
    { do 2 eexists. split; [done|]. repeat split; try done. by eexists. }
    destruct (Fs.is_dir (tree w) (PurePath.parent (PurePath.parent out))).
    2:{ do 2 eexists. split; [done|]. repeat split; try done. by eexists. }
    set (w0 := set_tree _ w).
    destruct (open_w_spec out w0) as (r & w1 & -> & Hsys & Hch & Htr & Hr).
    exists r, w1. repeat split; try done.
    destruct r as [f|e|]; [|by destruct Hr as [? ->]|done].
    destruct Hr as (-> & ? & ? & ? & Hk). repeat split; try done.
    intros p. destruct (Hk p) as [Hp|Hp]; [|by auto].
    rewrite Hp. unfold w0. simpl. rewrite kind_of_snoc.
    destruct (Fs.kind_of (tree w) p) eqn:Hkp; [by left|].
    case_decide; [right; right; by subst | by left].
Qed.

Lemma file_close_spec (f : Path) (w : World) (b : FileObject) :
  buffers w !! f = Some b →
  ∃ w', file_close f w = (Ok tt, w')
    ∧ system w' = system w ∧ tree w' = tree w ∧ children w' = children w
    ∧ trace w' = trace w ∧ Fs.on_disk w' f = written w f.
Proof.
  intros Hb. unfold file_close. rewrite Hb. eexists. split; [done|].
  repeat split. unfold written, Fs.on_disk. simpl.
  by rewrite lookup_insert_eq, Hb.
Qed.

(** ** A run of [main]

    Either the log could not be opened, and nothing was logged or
    written; or the loops ran over the instances of the tree as it is
    once the log is open, and the log holds the text of the rows (all of
    it unless the harness was killed). *)

Lemma main_spec (folders : list Path) (out : Path) (w : World) (r : Res unit) (w' : World) :
  main folders out w = (r, w') →
  system w' = system w ∧ children w' = children w
  ∧ ((∃ m, r = Raise (OSError m)) ∧ trace w' = trace w ∧ data w' = data w
     ∨ ∃ evs,
         trace w' = (trace w ++ evs)%list
         ∧ LoopTrace (system w) (tree w') (enumerate (system w) (tree w') folders) r evs
         ∧ starts_with (Fs.on_disk w' out) (csv_text (rows_of evs))
         ∧ (r ≠ Die → Fs.on_disk w' out = csv_text (rows_of evs))
         ∧ Fs.is_file (tree w') out = true
         ∧ ∀ p, Fs.kind_of (tree w') p = Fs.kind_of (tree w) p ∨ p = out
                ∨ (p = PurePath.parent out ∧ Fs.kind_of (tree w) p = None
                   ∧ Fs.kind_of (tree w') p = Some (Directory true))).
Proof.
  rewrite main_unfold.
  destruct (open_log_spec out w) as (r1 & w1 & -> & Hsys1 & Hch1 & Htr1 & Hr1).
  destruct r1 as [f|e|]; [|intros [= <- <-]|done].
  2:{ destruct Hr1 as ([m ->] & Hd & _). split; [done|]. split; [done|].
      left. split; [by eexists|]. done. }
  destruct Hr1 as (-> & Hd1 & Hb1 & Hfile & Hkind).
  assert (Hopen : buffers w1 !! out = Some (mkFile "" "")) by (by rewrite Hb1, lookup_insert_eq).
  assert (Hw1 : written w1 out = "").
  { unfold written, Fs.on_disk. by rewrite Hopen, Hd1, lookup_insert_eq. }
  destruct (loop_spec out (enumerate (system w) (tree w1) folders) w1 (mkFile "" "") Hopen)
    as (r2 & evs & w2 & Hloop & [Hsys2 Htree2 Hch2 Htr2] & Hlt & [b2 Hb2] & Hwr & Hpre).
  unfold try_finally. rewrite Hloop.
  rewrite Hw1 in Hwr. change ("" +:+ ?s) with s in Hwr.
  destruct (file_close_spec out w2 b2 Hb2) as (w3 & Hclose & Hsys3 & Htree3 & Hch3 & Htr3 & Hdisk3).
  assert (HDie : r2 = Die → starts_with (Fs.on_disk w2 out) (csv_text (rows_of evs))).
  { intros _. rewrite <- Hwr. unfold written. apply starts_with_app. }
  destruct r2 as [[]|e|].
  - rewrite Hclose. intros [= <- <-]. split; [congruence|]. split; [congruence|].
    right. exists evs. rewrite Htree3, Htree2, <- Hsys1.
    repeat split; try congruence; [|done].
    rewrite Hdisk3, Hwr. apply starts_with_refl.
  - rewrite Hclose. intros [= <- <-]. split; [congruence|]. split; [congruence|].
    right. exists evs. rewrite Htree3, Htree2, <- Hsys1.
    repeat split; try congruence; [|done].
    rewrite Hdisk3, Hwr. apply starts_with_refl.
  - intros [= <- <-]. split; [congruence|]. split; [congruence|].
    right. exists evs. rewrite Htree2, <- Hsys1.
    repeat split; try congruence; [by apply HDie|done].
Qed.

(** ** Reading a loop trace *)

Lemma loop_trace_ok (sys : string) (t : list (Path * Kind)) (l : list Path)
    (evs : list Event) :
  LoopTrace sys t l (Ok tt) evs →
  ∃ times : list (option Z),
    length times = length l
    ∧ rows_of evs = zip_with row_of l times
    ∧ spawns_of evs = (λ i, (argv_of sys i, 30)) <$> l
    ∧ resolves_of evs = (λ _, executable_path_on sys) <$> l.
Proof.
  intros H. remember (Ok tt) as r eqn:Hr.
  induction H as [|i l st r evs Hi Hb H IH| | | |]; try discriminate.
  - by exists [].
  - destruct (IH Hr) as (times & Hlen & Hrows & Hsp & Hres).
    exists (st :: times). simpl. by rewrite Hlen, Hrows, Hsp, Hres.
Qed.

Lemma loop_trace_resolves (sys : string) (t : list (Path * Kind)) (l : list Path)
    (r : Res unit) (evs : list Event) :
  LoopTrace sys t l r evs →
  Forall (λ p, p = executable_path_on sys) (resolves_of evs)
  ∧ (length (spawns_of evs) ≤ length (resolves_of evs))%nat
  ∧ (length (resolves_of evs) ≤ length l)%nat.
Proof.
  induction 1 as [|i l st r evs Hi Hb H (IH1 & IH2 & IH3)| | | |]; simpl.
  - by repeat constructor.
  - split; [by constructor|]. lia.
  - split; [by constructor|]. lia.
  - split; [by repeat constructor|]. lia.
  - split; [by repeat constructor|]. lia.
  - split; [by repeat constructor|]. lia.
Qed.

Lemma loop_trace_no_binary (sys : string) (t : list (Path * Kind)) (l : list Path)
    (r : Res unit) (evs : list Event) :
  Fs.is_file t (executable_path_on sys) = false →
  LoopTrace sys t l r evs →
  spawns_of evs = [] ∧ rows_of evs = []
  ∧ (length (resolves_of evs) ≤ 1)%nat
  ∧ (l = [] ∧ r = Ok tt ∨ l ≠ [] ∧ ∃ msg, r = Raise (AssertionError msg)).
Proof.
  intros Hno. destruct 1; try congruence; simpl.
  - repeat split; try done; try lia. by left.
  - repeat split; try done; try lia. right. split; [done|]. by eexists.
  - repeat split; try done; try lia. right. split; [done|]. by eexists.
Qed.

(** * The harness *)

(** ** The timed invocation *)



(** A child that exits just before the 30 seconds are over is no
    timeout, and the duration recorded for it is above 30000: the launch
    and the last poll are part of what is measured. *)
Example exit_at_the_last_moment :
  solve_time_of slow_world ["setA"; "1.cnf"] = Ok (Some 30004).
Proof. vm_compute. reflexivity. Qed.

(** C10, as stated, fails: the child is gone 0.4 ms after it has been
    created, well under a millisecond; but the launch takes 0.7 ms, and
    the parent, which sleeps a millisecond between its first two polls,
    notices the exit 0.6 ms late. The duration recorded is 1, not 0. *)
Lemma sub_millisecond_child_recorded_as_one :
  children quick_world (spawned quick_world)
    (argv_of (system quick_world) ["setA"; "1.cnf"])
  = Exits 700000 400000 600000 0
  ∧ (400000 < 1000000)%N
  ∧ solve_time_of quick_world ["setA"; "1.cnf"] = Ok (Some 1).
Proof. vm_compute. done. Qed.

(** C10, amended: the duration is the floor division by 1,000,000 of the
    difference of the two readings of the monotonic clock. That
    difference is not negative, and it is the time of the whole call: the
    launch of the child, its lifetime, and the delay until the parent
    notices its exit. So the duration is never negative, and it is 0
    exactly when the whole call took less than a millisecond; a child
    gone in less than a millisecond is necessary for a zero row, not
    sufficient. *)
Theorem duration_zero_iff_call_sub_millisecond (i : Path) (w : World)
    (launch ns late : N) (code : Z) :
  Fs.is_file (tree w) i = true →
  Fs.is_file (tree w) (executable_path_on (system w)) = true →
  children w (spawned w) (argv_of (system w) i) = Exits launch ns late code →
  Z.of_N ns ≤ seconds TIMEOUT * NS_PER_SECOND →
  ∃ w' d,
    solve i w = (Ok (Some d), w')
    ∧ clock w' - clock w = Z.of_N launch + Z.of_N ns + Z.of_N late
    ∧ d = (clock w' - clock w) `div` 1000000
    ∧ 0 ≤ d
    ∧ (d = 0 ↔ Z.of_N launch + Z.of_N ns + Z.of_N late < 1000000)
    ∧ (d = 0 → Z.of_N ns < 1000000)
    ∧ spawns_of (trace w')
      = (spawns_of (trace w) ++ [(argv_of (system w) i, seconds TIMEOUT)])%list.
Proof.
  intros Hi Hb Hc Hle.
  destruct (solve_spec i w) as (r & evs & dt & w' & Hs & Hcase & [_ _ _ Htr]
                                 & _ & _ & Hclock & _).
  inversion Hcase; subst; try congruence.
  - match goal with H : outlives _ _ |- _ => rewrite Hc in H; unfold outlives in H end.
    rewrite timeout_seconds in Hle. lia.
  - match goal with H : children _ _ _ = Exits _ _ _ _ |- _ =>
      rewrite Hc in H; injection H as <- <- <- <- end.
    set (e := Z.of_N launch + Z.of_N ns + Z.of_N late) in *.
    assert (He : 0 ≤ e) by (unfold e; lia).
    assert (Hzero : e `div` 1000000 = 0 ↔ e < 1000000).
    { split.
      - intros Hd. pose proof (Z.div_mod e 1000000 ltac:(lia)) as Hdm.
        pose proof (Z.mod_pos_bound e 1000000 ltac:(lia)) as Hmod. lia.
      - intros Hlt. apply Z.div_small. lia. }
    exists w', (e `div` 1000000).
    replace (clock w' - clock w) with e by lia.
    split; [done|]. split; [done|]. split; [done|].
    split; [apply Z.div_pos; lia|]. split; [done|]. split.
    + intros Hd. apply Hzero in Hd. unfold e in Hd. lia.
    + by rewrite Htr, spawns_of_app.
Qed.

Lemma duration_zero_iff_call_sub_millisecond_witness :
  ∃ w' d,
    solve ["setB"; "1.cnf"] brisk_world = (Ok (Some d), w')
    ∧ clock w' - clock brisk_world = Z.of_N 300000 + Z.of_N 400000 + Z.of_N 200000
    ∧ d = (clock w' - clock brisk_world) `div` 1000000
    ∧ 0 ≤ d
    ∧ (d = 0 ↔ Z.of_N 300000 + Z.of_N 400000 + Z.of_N 200000 < 1000000)
    ∧ (d = 0 → Z.of_N 400000 < 1000000)
    ∧ spawns_of (trace w')
      = (spawns_of (trace brisk_world)
         ++ [(argv_of (system brisk_world) ["setB"; "1.cnf"], seconds TIMEOUT)])%list.
Proof.
  apply (duration_zero_iff_call_sub_millisecond ["setB"; "1.cnf"] brisk_world
           300000 400000 200000 3).
  - vm_compute. reflexivity.
  - vm_compute. reflexivity.
  - reflexivity.
  - vm_compute. intros H. discriminate H.
Defined.

(** ** The row of a timed-out instance *)

(** C1: for an instance whose child is still running when the timeout is
    over, [solve] returns [None], the loop body writes the row and
    returns normally (the run goes on), and the second column of the row
    is [str(None)], the text [None]: not the marker [-] that the docstring
    of [main] documents. *)
Theorem timeout_row_is_str_None (f i : Path) (w : World) (b : FileObject) :
  buffers w !! f = Some b →
  Fs.is_file (tree w) i = true →
  Fs.is_file (tree w) (executable_path_on (system w)) = true →
  outlives (seconds TIMEOUT) (children w (spawned w) (argv_of (system w) i)) →
  ∃ w' evs,
    record_instance f i w = (Ok tt, w')
    ∧ trace w' = (trace w ++ evs)%list
    ∧ rows_of evs = [[PurePath.as_posix i; "None"]]
    ∧ "None" ≠ documented_timeout_marker.
Proof.
  intros Hopen Hi Hb Hout. rewrite timeout_seconds in Hout.
  destruct (solve_spec i w) as (r & evs & dt & w1 & Hs & Hcase & [_ _ _ Htr]
                                 & _ & Hbuf & _ & _).
  unfold record_instance, bind. rewrite Hs.
  inversion Hcase; subst; try congruence;
    try (match goal with H : children _ _ _ = _ |- _ => rewrite H in Hout end;
         unfold outlives in Hout; first [done | lia]).
  destruct (writerow_spec f (row_of i None) w1 b) as (w2 & Hw & [_ _ _ Htr2] & _);
    [by rewrite Hbuf|].
  exists w2, (checks_of (system w) i
              ++ [ESpawn (argv_of (system w) i) 30; EWriteRow (row_of i None)])%list.
  split; [exact Hw|]. split.
  - rewrite Htr2, Htr. by rewrite <- !(assoc_L (++)).
  - split; [done|]. unfold documented_timeout_marker. discriminate.
Qed.

Lemma timeout_row_is_str_None_witness :
  ∃ w' evs,
    record_instance demo_out ["setA"; "2.cnf"] hanging_world = (Ok tt, w')
    ∧ trace w' = (trace hanging_world ++ evs)%list
    ∧ rows_of evs = [["setA/2.cnf"; "None"]]
    ∧ "None" ≠ documented_timeout_marker.
Proof.
  apply (timeout_row_is_str_None demo_out ["setA"; "2.cnf"] hanging_world (mkFile "" "")).
  - vm_compute. reflexivity.
  - vm_compute. reflexivity.
  - vm_compute. reflexivity.
  - exact I.
Defined.

(** The whole run when no child ever exits: it ends normally with one
    such row for each instance, and each call has taken the 30 seconds
    and the time to launch, kill and reap the child. *)
Example timeout_run :
  let run := main [["setA"]] demo_out
               (mkWorld "Linux" demo_tree ∅ ∅ 0 (λ _ _, Hangs 2000000 4000000) 0 [] 4096) in
  run.1 = Ok tt
  ∧ rows_of (trace run.2) = [["setA/1.cnf"; "None"]; ["setA/2.cnf"; "None"]]
  ∧ clock run.2 = 2 * (30 * NS_PER_SECOND + 6000000).
Proof. vm_compute. done. Qed.

(** ** Rows and enumeration *)

Lemma instance_column_rows (l : list Path) (times : list (option Z)) :
  length times = length l →
  instance_column (zip_with row_of l times) = PurePath.as_posix <$> l.
Proof.
  revert times. induction l as [|i l IH]; intros [|t times] Hlen; try done.
  simpl in *. f_equal. apply IH. lia.
Qed.

Lemma length_rows (l : list Path) (times : list (option Z)) :
  length times = length l → length (zip_with row_of l times) = length l.
Proof. intros H. rewrite length_zip_with. lia. Qed.

(** C2: in a run that ends normally, the rows written are those of the
    enumerated instance files, one row each, in the order of the
    enumeration; and the log holds the text of exactly these rows. The
    enumeration is that of the tree of the final world: the tree does not
    change once the log is open. *)
Theorem rows_follow_enumeration (folders : list Path) (out : Path) (w w' : World) :
  main folders out w = (Ok tt, w') →
  ∃ evs times,
    trace w' = (trace w ++ evs)%list
    ∧ length times = length (enumerate (system w) (tree w') folders)
    ∧ rows_of evs = zip_with row_of (enumerate (system w) (tree w') folders) times
    ∧ length (rows_of evs) = length (enumerate (system w) (tree w') folders)
    ∧ instance_column (rows_of evs) = PurePath.as_posix <$> enumerate (system w) (tree w') folders
    ∧ Fs.on_disk w' out = csv_text (rows_of evs).
Proof.
  intros Hrun.
  destruct (main_spec _ _ _ _ _ Hrun) as (_ & _ & [([m Hm] & _)|(evs & Htr & Hlt & _ & Hdisk & _)]);
    [done|].
  destruct (loop_trace_ok _ _ _ _ Hlt) as (times & Hlen & Hrows & _).
  exists evs, times. rewrite Hrows.
  repeat split; try done.
  - by apply length_rows.
  - by apply instance_column_rows.
  - rewrite <- Hrows. by apply Hdisk.
Qed.

Lemma rows_follow_enumeration_witness :
  let w' := (main [["setA"]; ["setB"]] demo_out demo_world).2 in
  ∃ evs times,
    trace w' = (trace demo_world ++ evs)%list
    ∧ length times = length (enumerate (system demo_world) (tree w') [["setA"]; ["setB"]])
    ∧ rows_of evs = zip_with row_of (enumerate (system demo_world) (tree w') [["setA"]; ["setB"]]) times
    ∧ length (rows_of evs) = length (enumerate (system demo_world) (tree w') [["setA"]; ["setB"]])
    ∧ instance_column (rows_of evs)
      = PurePath.as_posix <$> enumerate (system demo_world) (tree w') [["setA"]; ["setB"]]
    ∧ Fs.on_disk w' demo_out = csv_text (rows_of evs).
Proof.
  intros w'.
  apply (rows_follow_enumeration [["setA"]; ["setB"]] demo_out demo_world w').
  vm_compute. reflexivity.
Defined.

(** The scenario of two directories: three rows, in directory order. *)
Example two_directories :
  let run := main [["setA"]; ["setB"]] demo_out demo_world in
  run.1 = Ok tt
  ∧ enumerate (system demo_world) (tree run.2) [["setA"]; ["setB"]]
    = [["setA"; "1.cnf"]; ["setA"; "2.cnf"]; ["setB"; "1.cnf"]]
  ∧ rows_of (trace run.2)
    = [["setA/1.cnf"; "5"]; ["setA/2.cnf"; "None"]; ["setB/1.cnf"; "0"]].
Proof. vm_compute. done. Qed.

(** ** Folders given more than once *)

Lemma occurrences_app `{EqDecision A} (x : A) (a b : list A) :
  occurrences x (a ++ b) = (occurrences x a + occurrences x b)%nat.
Proof. unfold occurrences. by rewrite filter_app, length_app. Qed.

Lemma occurrences_cons `{EqDecision A} (x y : A) (l : list A) :
  occurrences x (y :: l)
  = ((if decide (y = x) then 1 else 0) + occurrences x l)%nat.
Proof.
  unfold occurrences. rewrite filter_cons. by destruct (decide (y = x)).
Qed.

Lemma occurrences_elem `{EqDecision A} (x : A) (l : list A) :
  x ∈ l → (1 ≤ occurrences x l)%nat.
Proof.
  induction 1 as [x l|x y l _ IH]; rewrite occurrences_cons.
  - rewrite decide_True by done. lia.
  - lia.
Qed.

Lemma occurrences_fmap `{EqDecision A} `{EqDecision B} (h : A → B) (x : A) (l : list A) :
  (occurrences x l ≤ occurrences (h x) (h <$> l))%nat.
Proof.
  induction l as [|y l IH]; [done|].
  rewrite fmap_cons, !occurrences_cons.
  destruct (decide (y = x)) as [->|].
  - rewrite decide_True by done. lia.
  - lia.
Qed.

Lemma occurrences_flat_map `{EqDecision A} `{EqDecision B}
    (g : A → list B) (d : A) (i : B) (l : list A) :
  i ∈ g d → (occurrences d l ≤ occurrences i (flat_map g l))%nat.
Proof.
  intros Hin. induction l as [|d' l IH]; [done|].
  simpl. rewrite occurrences_app, occurrences_cons.
  destruct (decide (d' = d)) as [->|].
  - pose proof (occurrences_elem i (g d) Hin). lia.
  - lia.
Qed.

(** C9: the folders are processed by position, without deduplication:
    the first column of the rows is, folder after folder as given, the
    list of the instance files of that folder; so for a folder given
    several times, each of its instance files is launched and recorded
    once per occurrence of the folder (and more often only if another
    folder yields it too). The rows, duplicates included, are what the
    log holds at the end of the run. *)
Theorem repeated_folder_repeats_rows (folders : list Path) (out : Path)
    (w w' : World) (d i : Path) :
  main folders out w = (Ok tt, w') →
  i ∈ Fs.glob (system w) (tree w') d "*.cnf" →
  ∃ evs,
    trace w' = (trace w ++ evs)%list
    ∧ instance_column (rows_of evs)
      = PurePath.as_posix <$> flat_map (λ folder, Fs.glob (system w) (tree w') folder "*.cnf") folders
    ∧ (occurrences d folders
       ≤ occurrences (PurePath.as_posix i) (instance_column (rows_of evs)))%nat
    ∧ (occurrences d folders
       ≤ occurrences (argv_of (system w) i, 30%Z) (spawns_of evs))%nat
    ∧ Fs.on_disk w' out = csv_text (rows_of evs).
Proof.
  intros Hrun Hin.
  destruct (main_spec _ _ _ _ _ Hrun)
    as (_ & _ & [([m Hm] & _)|(evs & Htr & Hlt & _ & Hdisk & _)]); [done|].
  destruct (loop_trace_ok _ _ _ _ Hlt) as (times & Hlen & Hrows & Hsp & _).
  exists evs. split; [done|].
  pose proof (occurrences_flat_map (λ folder, Fs.glob (system w) (tree w') folder "*.cnf")
                d i folders Hin) as Hocc.
  fold (enumerate (system w) (tree w') folders) in Hocc.
  fold (enumerate (system w) (tree w') folders).
  split; [by rewrite Hrows, instance_column_rows|].
  split; [|split].
  - rewrite Hrows, instance_column_rows by done.
    etrans; [exact Hocc|]. apply occurrences_fmap.
  - rewrite Hsp. etrans; [exact Hocc|].
    apply (occurrences_fmap (λ i, (argv_of (system w) i, 30))).
  - by apply Hdisk.
Qed.

Lemma repeated_folder_repeats_rows_witness :
  let w' := (main [["setB"]; ["setB"]] demo_out demo_world).2 in
  ∃ evs,
    trace w' = (trace demo_world ++ evs)%list
    ∧ instance_column (rows_of evs)
      = PurePath.as_posix
          <$> flat_map (λ folder, Fs.glob (system demo_world) (tree w') folder "*.cnf") [["setB"]; ["setB"]]
    ∧ (occurrences ["setB"] [["setB"]; ["setB"]]
       ≤ occurrences (PurePath.as_posix ["setB"; "1.cnf"])
           (instance_column (rows_of evs)))%nat
    ∧ (occurrences ["setB"] [["setB"]; ["setB"]]
       ≤ occurrences (argv_of (system demo_world) ["setB"; "1.cnf"], 30%Z)
           (spawns_of evs))%nat
    ∧ Fs.on_disk w' demo_out = csv_text (rows_of evs).
Proof.
  intros w'.
  apply (repeated_folder_repeats_rows [["setB"]; ["setB"]] demo_out demo_world w'
           ["setB"] ["setB"; "1.cnf"]).
  - vm_compute. reflexivity.
  - vm_compute. apply list_elem_of_here.
Defined.

(** The same folder twice: its instance is run and recorded twice, and
    the log holds the two rows. *)
Example same_folder_twice :
  let run := main [["setB"]; ["setB"]] demo_out demo_world in
  run.1 = Ok tt
  ∧ rows_of (trace run.2) = [["setB/1.cnf"; "5"]; ["setB/1.cnf"; "None"]]
  ∧ occurrences ["setB"] [["setB"]; ["setB"]] = 2%nat
  ∧ Fs.on_disk run.2 demo_out
    = "setB/1.cnf,5" +:+ Csv.lineterminator +:+ "setB/1.cnf,None" +:+ Csv.lineterminator.
Proof. vm_compute. done. Qed.

(** ** A solver binary that does not exist *)

(** C3, as stated, fails: without a solver binary, a run over a folder
    that holds no instance ends normally, with exit status 0. *)
Lemma missing_binary_exit_zero :
  let run := script (1700000000 # 1) (Some demo_out) [["empty"]] unbuilt_world in
  Fs.is_file (tree unbuilt_world) (executable_path_on (system unbuilt_world)) = false
  ∧ run.1 = Finished (Ok tt)
  ∧ exit_status run.1 = 0.
Proof. vm_compute. done. Qed.

(** C3, amended: when the solver binary is no existing file (and is not
    the log itself), no child is launched and no row is written: the log
    is either not opened, or is left empty. The run ends with an
    exception, exit status 1, when the log cannot be opened and, once the
    log is open, as soon as one instance is enumerated. With no instance
    enumerated it ends normally, exit status 0, with the log created
    empty, unless the log could not be opened. *)
Theorem missing_binary_writes_nothing (folders : list Path) (out : Path)
    (w : World) (r : Res unit) (w' : World) :
  Fs.is_file (tree w) (executable_path_on (system w)) = false →
  out ≠ executable_path_on (system w) →
  main folders out w = (r, w') →
  ∃ evs,
    trace w' = (trace w ++ evs)%list
    ∧ spawns_of evs = []
    ∧ rows_of evs = []
    ∧ (data w' = data w ∨ Fs.on_disk w' out = "")
    ∧ (enumerate (system w) (tree w') folders ≠ [] → exit_status (Finished r) = 1)
    ∧ (r = Ok tt → enumerate (system w) (tree w') folders = [])
    ∧ (enumerate (system w) (tree w') folders = [] →
       r = Ok tt ∧ exit_status (Finished r) = 0
       ∧ Fs.is_file (tree w') out = true ∧ Fs.on_disk w' out = ""
       ∨ (∃ m, r = Raise (OSError m)) ∧ exit_status (Finished r) = 1
         ∧ data w' = data w ∧ evs = []).
Proof.
  intros Hno Hne Hrun.
  destruct (main_spec _ _ _ _ _ Hrun) as
    (_ & _ & [([m ->] & Htr & Hd)|(evs & Htr & Hlt & _ & Hdisk & Hfile & Hkind)]).
  { exists []. rewrite app_nil_r. repeat split; try done; [by left|].
    intros _. right. split; [by eexists | done]. }
  assert (Hno' : Fs.is_file (tree w') (executable_path_on (system w)) = false).
  { unfold Fs.is_file in *. apply bool_decide_eq_false. apply bool_decide_eq_false in Hno.
    destruct (Hkind (executable_path_on (system w))) as [Hk|[Heq|(_ & _ & Hk)]];
      [by rewrite Hk | congruence | by rewrite Hk]. }
  destruct (loop_trace_no_binary _ _ _ _ _ Hno' Hlt) as (Hsp & Hrows & _ & Hr).
  exists evs. repeat split; try done.
  - right. rewrite Hdisk; [by rewrite Hrows|].
    destruct Hr as [[_ ->]|[_ [msg ->]]]; done.
  - intros Hsome. destruct Hr as [[? _]|[_ [msg ->]]]; done.
  - intros ->. destruct Hr as [[? _]|[_ [msg ?]]]; done.
  - intros Hnone. left. destruct Hr as [[_ ->]|[? _]]; [|done].
    repeat split; try done. rewrite Hdisk by done. by rewrite Hrows.
Qed.

Lemma missing_binary_writes_nothing_witness :
  let run := main [["empty"]; ["setA"]] demo_out unbuilt_world in
  ∃ evs,
    trace run.2 = (trace unbuilt_world ++ evs)%list
    ∧ spawns_of evs = []
    ∧ rows_of evs = []
    ∧ (data run.2 = data unbuilt_world ∨ Fs.on_disk run.2 demo_out = "")
    ∧ (enumerate (system unbuilt_world) (tree run.2) [["empty"]; ["setA"]] ≠ []
       → exit_status (Finished run.1) = 1)
    ∧ (run.1 = Ok tt
       → enumerate (system unbuilt_world) (tree run.2) [["empty"]; ["setA"]] = [])
    ∧ (enumerate (system unbuilt_world) (tree run.2) [["empty"]; ["setA"]] = [] →
       run.1 = Ok tt ∧ exit_status (Finished run.1) = 0
       ∧ Fs.is_file (tree run.2) demo_out = true ∧ Fs.on_disk run.2 demo_out = ""
       ∨ (∃ m, run.1 = Raise (OSError m)) ∧ exit_status (Finished run.1) = 1
         ∧ data run.2 = data unbuilt_world ∧ evs = []).
Proof.
  intros run.
  apply (missing_binary_writes_nothing [["empty"]; ["setA"]] demo_out unbuilt_world
           run.1 run.2).
  - vm_compute. reflexivity.
  - vm_compute. intros H. discriminate H.
  - vm_compute. reflexivity.
Defined.

(** Without a binary and without an instance, a log that cannot be
    opened still ends the run with an error: its directory is missing,
    and so is the parent of that directory. *)
Example missing_binary_and_no_log :
  let run := script (1700000000 # 1) (Some ["results"; "today"; "out.csv"])
               [["empty"]] unbuilt_world in
  run.1 = Finished (Raise (OSError "FileNotFoundError"))
  ∧ exit_status run.1 = 1
  ∧ run.2 = unbuilt_world.
Proof. vm_compute. done. Qed.

(** With an instance to run, the same missing binary ends the run with
    the assertion of [solve], after the log has been created empty. *)
Example missing_binary_assertion :
  let run := main [["empty"]; ["setA"]] demo_out unbuilt_world in
  run.1 = Raise (AssertionError
                   "The solver binary '../target/release/simplesat' does not exist.")
  ∧ Fs.is_file (tree run.2) demo_out = true
  ∧ data run.2 !! demo_out = Some "".
Proof. vm_compute. done. Qed.

(** ** Folders that cannot be listed *)





(** ** When the rows reach the file *)

(** C6, as stated, fails: the first instance is done and its row is
    written to the file object, the second child is launched, and the
    harness is killed while it waits: the log on disk holds no row. *)
Lemma killed_run_loses_rows :
  let run := main [["setA"]] demo_out killed_world in
  run.1 = Die
  ∧ rows_of (trace run.2) = [["setA/1.cnf"; "5"]]
  ∧ length (spawns_of (trace run.2)) = 2%nat
  ∧ data run.2 !! demo_out = Some "".
Proof. vm_compute. done. Qed.

(** C6, amended: no flush follows a row. The rows are handed to the file
    object in order; once the log has been opened, what is on disk is
    always a prefix of the text of the rows produced, and it is the whole
    text when the run has ended, normally or by an exception, because the
    [with] block closes the file. A killed run may have lost the rows
    still in the buffer. *)
Theorem log_complete_after_close (folders : list Path) (out : Path)
    (w : World) (r : Res unit) (w' : World) :
  main folders out w = (r, w') →
  (∃ m, r = Raise (OSError m)) ∧ trace w' = trace w ∧ data w' = data w
  ∨ ∃ evs,
      trace w' = (trace w ++ evs)%list
      ∧ starts_with (Fs.on_disk w' out) (csv_text (rows_of evs))
      ∧ (r ≠ Die → Fs.on_disk w' out = csv_text (rows_of evs)).
Proof.
  intros Hrun.
  destruct (main_spec _ _ _ _ _ Hrun) as
    (_ & _ & [Hsetup|(evs & Htr & _ & Hpre & Hdisk & _)]).
  - by left.
  - right. by exists evs.
Qed.

Lemma log_complete_after_close_witness :
  let run := main [["setA"]; ["setB"]] demo_out demo_world in
  (∃ m, run.1 = Raise (OSError m))
  ∧ trace run.2 = trace demo_world ∧ data run.2 = data demo_world
  ∨ ∃ evs,
      trace run.2 = (trace demo_world ++ evs)%list
      ∧ starts_with (Fs.on_disk run.2 demo_out) (csv_text (rows_of evs))
      ∧ (run.1 ≠ Die → Fs.on_disk run.2 demo_out = csv_text (rows_of evs)).
Proof.
  intros run.
  apply (log_complete_after_close [["setA"]; ["setB"]] demo_out demo_world run.1 run.2).
  vm_compute. reflexivity.
Defined.

(** How much of the log is on disk while the run goes on: rows of 20
    bytes are held back until the next one would take them beyond
    [Fs.CHUNK_SIZE]; the 410th row sends the 409 rows before it to the
    file and stays behind. Rows of 215 bytes: the 39th sends 38 rows. A
    buffer of 8192 bytes under the text, as on Windows, keeps the 409
    rows as well. *)
Example rows_reach_the_disk_in_chunks :
  let after sys (row : list string) n :=
    (for_ (replicate n row) (writerow demo_out)
       (mkWorld sys (tree running_world) (data running_world) (buffers running_world)
          0 demo_children 0 [] 4096)).2 in
  String.length (Csv.line short_row) = 20%nat
  ∧ String.length (Fs.on_disk (after "Linux" short_row 409%nat) demo_out) = 0%nat
  ∧ String.length (Fs.on_disk (after "Linux" short_row 410%nat) demo_out) = (409 * 20)%nat
  ∧ String.length (written (after "Linux" short_row 410%nat) demo_out) = (410 * 20)%nat
  ∧ String.length (Csv.line long_row) = 215%nat
  ∧ String.length (Fs.on_disk (after "Linux" long_row 39%nat) demo_out) = (38 * 215)%nat
  ∧ String.length (Fs.on_disk (after "Windows" short_row 410%nat) demo_out) = 0%nat.
Proof. vm_compute. done. Qed.

(** ** How often the binary is looked up *)

(** C7, as stated, fails: in a run over three instances the path of the
    binary is resolved three times, and its existence is checked three
    times, twice of them after a child has already been launched. *)
Lemma binary_resolved_three_times :
  let run := main [["setA"]; ["setB"]] demo_out demo_world in
  run.1 = Ok tt
  ∧ resolves_of (trace run.2) = [SOLVER_BINARY; SOLVER_BINARY; SOLVER_BINARY]
  ∧ occurrences (EIsFile SOLVER_BINARY true) (trace run.2) = 3%nat
  ∧ take 4 (trace run.2)
    = [EIsFile ["setA"; "1.cnf"] true; EResolve SOLVER_BINARY;
       EIsFile SOLVER_BINARY true;
       ESpawn ["../target/release/simplesat"; "setA/1.cnf"] 30].
Proof. vm_compute. done. Qed.

(** C7, amended: the path of the binary is resolved inside [solve], once
    for every instance that is a file, and every resolution gives the
    same path; no child is launched without a resolution of its own; in a
    run that ends normally there are as many resolutions as instances.
    The existence check follows each resolution, and the first one that
    fails ends the run: with a binary that is no file there is at most
    one resolution, no launch, and no normal end once an instance is
    enumerated. *)
Theorem binary_resolved_per_instance (folders : list Path) (out : Path)
    (w : World) (r : Res unit) (w' : World) :
  main folders out w = (r, w') →
  ∃ evs,
    trace w' = (trace w ++ evs)%list
    ∧ Forall (λ p, p = executable_path_on (system w)) (resolves_of evs)
    ∧ (length (spawns_of evs) ≤ length (resolves_of evs))%nat
    ∧ (r = Ok tt →
       length (resolves_of evs) = length (enumerate (system w) (tree w') folders))
    ∧ (Fs.is_file (tree w') (executable_path_on (system w)) = false →
       (length (resolves_of evs) ≤ 1)%nat
       ∧ spawns_of evs = []
       ∧ (enumerate (system w) (tree w') folders ≠ [] → ∃ e, r = Raise e)).
Proof.
  intros Hrun.
  destruct (main_spec _ _ _ _ _ Hrun) as
    (_ & _ & [([m ->] & Htr & Hd)|(evs & Htr & Hlt & _)]).
  { exists []. rewrite app_nil_r. repeat split; try done.
    - simpl. lia.
    - intros _. by eexists. }
  destruct (loop_trace_resolves _ _ _ _ _ Hlt) as (Hall & Hsp & Hlen).
  exists evs. repeat split; try done.
  - intros ->. destruct (loop_trace_ok _ _ _ _ Hlt) as (times & _ & _ & _ & ->).
    by rewrite length_fmap.
  - by destruct (loop_trace_no_binary _ _ _ _ _ H Hlt) as (_ & _ & ? & _).
  - by destruct (loop_trace_no_binary _ _ _ _ _ H Hlt) as (? & _).
  - intros Hsome.
    destruct (loop_trace_no_binary _ _ _ _ _ H Hlt) as (_ & _ & _ & [[? _]|[_ [msg ->]]]);
      [done | by eexists].
Qed.

Lemma binary_resolved_per_instance_witness :
  let run := main [["setA"]; ["setB"]] demo_out demo_world in
  ∃ evs,
    trace run.2 = (trace demo_world ++ evs)%list
    ∧ Forall (λ p, p = executable_path_on (system demo_world)) (resolves_of evs)
    ∧ (length (spawns_of evs) ≤ length (resolves_of evs))%nat
    ∧ (run.1 = Ok tt →
       length (resolves_of evs) = length (enumerate (system demo_world) (tree run.2) [["setA"]; ["setB"]]))
    ∧ (Fs.is_file (tree run.2) (executable_path_on (system demo_world)) = false →
       (length (resolves_of evs) ≤ 1)%nat
       ∧ spawns_of evs = []
       ∧ (enumerate (system demo_world) (tree run.2) [["setA"]; ["setB"]] ≠ [] → ∃ e, run.1 = Raise e)).
Proof.
  intros run.
  apply (binary_resolved_per_instance [["setA"]; ["setB"]] demo_out demo_world run.1 run.2).
  vm_compute. reflexivity.
Defined.

(** ** The default path of the log *)

(** C8, as stated, fails: two runs started at different times within
    the same second get the same default path. *)
Lemma same_second_same_default_path :
  (17000000002 # 10)%Q ≠ (17000000007 # 10)%Q
  ∧ ¬ Qeq (17000000002 # 10) (17000000007 # 10)
  ∧ default_output_file (17000000002 # 10) = default_output_file (17000000007 # 10).
Proof.
  split; [intros H; discriminate H|].
  split; [intros H; vm_compute in H; discriminate H|].
  vm_compute. reflexivity.
Qed.

Lemma split_slash_nonempty (b : string) : PurePath.split_slash b ≠ [].
Proof.
  destruct b as [|c b]; simpl; [done|].
  case_decide; [done|]. by destruct (PurePath.split_slash b).
Qed.

Lemma split_slash_no_slash (a b : string) :
  no_slash a →
  PurePath.split_slash (a +:+ b) =
  match PurePath.split_slash b with
  | [] => [a]
  | x :: xs => (a +:+ x) :: xs
  end.
Proof.
  induction a as [|c a IH]; intros Ha.
  - change ("" +:+ b) with b.
    pose proof (split_slash_nonempty b). by destruct (PurePath.split_slash b).
  - destruct Ha as [Hc Ha]. rewrite string_app_cons. simpl.
    rewrite decide_False by done. rewrite IH by done.
    by destruct (PurePath.split_slash b).
Qed.

Lemma split_slash_whole (a : string) : no_slash a → PurePath.split_slash a = [a].
Proof.
  intros Ha. rewrite <- (string_app_nil_r a) at 1.
  rewrite split_slash_no_slash by done. simpl. by rewrite string_app_nil_r.
Qed.

Lemma split_slash_slash (b : string) :
  PurePath.split_slash ("/" +:+ b) = "" :: PurePath.split_slash b.
Proof. reflexivity. Qed.

Lemma no_slash_app (a b : string) : no_slash a → no_slash b → no_slash (a +:+ b).
Proof.
  induction a as [|c a IH]; intros Ha Hb; [done|].
  destruct Ha as [Hc Ha]. rewrite string_app_cons. split; [done | by apply IH].
Qed.

Lemma pretty_N_char_no_slash (x : N) : pretty_N_char x ≠ "/"%char.
Proof. unfold pretty_N_char. by repeat case_match. Qed.

Lemma pretty_N_go_no_slash (x : N) (s : string) :
  no_slash s → no_slash (pretty_N_go x s).
Proof.
  revert s. induction (N.lt_wf_0 x) as [x _ IH]; intros s Hs.
  destruct (decide (x = 0%N)) as [->|Hpos].
  - by rewrite pretty_N_go_0.
  - rewrite pretty_N_go_step by lia. apply IH.
    + apply N.div_lt; lia.
    + split; [apply pretty_N_char_no_slash | done].
Qed.

Lemma pretty_Z_no_slash (z : Z) : no_slash (pretty z).
Proof.
  destruct z as [|p|p]; unfold pretty, pretty_Z.
  - by repeat split.
  - unfold pretty, pretty_positive, pretty, pretty_N.
    case_decide; [by repeat split|]. by apply pretty_N_go_no_slash.
  - apply no_slash_app; [by repeat split|].
    unfold pretty, pretty_positive, pretty, pretty_N.
    case_decide; [by repeat split|]. by apply pretty_N_go_no_slash.
Qed.

(** The parts of the default path: the leading ["."] is dropped. *)
Lemma default_output_file_parts (t : Q) :
  default_output_file t
  = ["results"; "benchmark-" +:+ pretty (int_of_real t) +:+ ".csv"].
Proof.
  unfold default_output_file, PurePath.parse.
  change ("./results/benchmark-" +:+ pretty (int_of_real t) +:+ ".csv")
    with ("." +:+ "/" +:+ "results" +:+ "/"
          +:+ ("benchmark-" +:+ pretty (int_of_real t) +:+ ".csv")).
  rewrite (split_slash_no_slash "."), split_slash_slash by (by repeat split).
  rewrite (split_slash_no_slash "results"), split_slash_slash by (by repeat split).
  rewrite split_slash_whole.
  2:{ apply no_slash_app; [by repeat split|].
      apply no_slash_app; [apply pretty_Z_no_slash | by repeat split]. }
  reflexivity.
Qed.

(** C8, amended: the default path holds the start time cut to whole
    seconds, so two runs get different default paths exactly when their
    start times differ in whole seconds. *)
Theorem default_path_differs_by_second (t1 t2 : Q) :
  default_output_file t1 = default_output_file t2 ↔ int_of_real t1 = int_of_real t2.
Proof.
  rewrite !default_output_file_parts. split.
  - intros H. injection H as H.
    change (pretty (int_of_real t1) +:+ ".csv" = pretty (int_of_real t2) +:+ ".csv") in H.
    apply string_app_inv_tail in H.
    by apply (inj pretty) in H.
  - by intros ->.
Qed.

Example default_path_next_second :
  default_output_file (17000000002 # 10) = ["results"; "benchmark-1700000000.csv"]
  ∧ default_output_file (17000000012 # 10) = ["results"; "benchmark-1700000001.csv"].
Proof. vm_compute. done. Qed.

(** * Further properties *)

(** ** The path of the binary *)

(** X1: [get_executable_path] reads nothing but the platform: the binary
    is [simplesat] in [../target/release], and the name gets the suffix
    [.exe] exactly on Windows; the world is left as it is, the call
    logged apart. *)
Theorem executable_path_by_platform (w : World) :
  get_executable_path w = (Ok (executable_path_on (system w)),
                           log (EResolve (executable_path_on (system w))) w)
  ∧ PurePath.parent (executable_path_on (system w)) = PurePath.parse "../target/release"
  ∧ PurePath.name (executable_path_on (system w))
    = (if decide (system w = "Windows") then "simplesat.exe" else "simplesat")
  ∧ (PurePath.suffix (executable_path_on (system w)) = ".exe" ↔ system w = "Windows").
Proof.
  split; [done|]. unfold executable_path_on.
  destruct (decide (system w = "Windows")) as [Hw|Hw].
  - by repeat split.
  - by repeat split.
Qed.

(** ** The assertions and the errors of [solve] *)

(** X2: when the instance is no regular file, [solve] raises the
    assertion error that names it, before anything else is done: the
    binary is not looked up, nothing is launched, the clock and the files
    are as before. *)
Theorem solve_rejects_missing_instance (i : Path) (w : World) :
  Fs.is_file (tree w) i = false →
  solve i w =
  (Raise (AssertionError
            ("Instance file '" +:+ PurePath.str (system w) i +:+ "' does not exist.")),
   log (EIsFile i false) w).
Proof.
  intros Hi.
  unfold solve, bind, platform_system, Path_is_file, assert_, raise.
  by rewrite Hi.
Qed.

Lemma solve_rejects_missing_instance_witness :
  solve ["setA"; "dir.cnf"] odd_world =
  (Raise (AssertionError
            ("Instance file '" +:+ PurePath.str (system odd_world) ["setA"; "dir.cnf"]
             +:+ "' does not exist.")),
   log (EIsFile ["setA"; "dir.cnf"] false) odd_world).
Proof.
  apply (solve_rejects_missing_instance ["setA"; "dir.cnf"] odd_world).
  vm_compute. reflexivity.
Defined.

(** X3: when the instance is a file and the binary is none, [solve]
    raises the assertion error that names the binary, after the two
    checks and without launching anything. *)
Theorem solve_rejects_missing_binary (i : Path) (w : World) :
  Fs.is_file (tree w) i = true →
  Fs.is_file (tree w) (executable_path_on (system w)) = false →
  solve i w =
  (Raise (AssertionError
            ("The solver binary '"
             +:+ PurePath.str (system w) (executable_path_on (system w))
             +:+ "' does not exist.")),
   log (EIsFile (executable_path_on (system w)) false)
     (log (EResolve (executable_path_on (system w)))
        (log (EIsFile i true) w))).
Proof.
  intros Hi Hb.
  unfold solve, bind, platform_system, Path_is_file, get_executable_path,
    assert_, ret, raise.
  rewrite Hi. simpl. by rewrite Hb.
Qed.

Lemma solve_rejects_missing_binary_witness :
  solve ["setA"; "1.cnf"] unbuilt_world =
  (Raise (AssertionError
            ("The solver binary '"
             +:+ PurePath.str (system unbuilt_world)
                   (executable_path_on (system unbuilt_world))
             +:+ "' does not exist.")),
   log (EIsFile (executable_path_on (system unbuilt_world)) false)
     (log (EResolve (executable_path_on (system unbuilt_world)))
        (log (EIsFile ["setA"; "1.cnf"] true) unbuilt_world))).
Proof.
  apply (solve_rejects_missing_binary ["setA"; "1.cnf"] unbuilt_world).
  - vm_compute. reflexivity.
  - vm_compute. reflexivity.
Defined.

(** X4: a child that cannot be launched is no timeout: the error of the
    launch is not caught by the [except] clause of [solve], which lets it
    through instead of returning [None]; the clock has not moved. *)
Theorem solve_lets_launch_errors_through (i : Path) (w : World) :
  Fs.is_file (tree w) i = true →
  Fs.is_file (tree w) (executable_path_on (system w)) = true →
  children w (spawned w) (argv_of (system w) i) = CannotSpawn →
  ∃ msg w',
    solve i w = (Raise (OSError msg), w')
    ∧ clock w' = clock w
    ∧ trace w' = (trace w ++ checks_of (system w) i)%list.
Proof.
  intros Hi Hb Hc.
  destruct (solve_spec i w) as (r & evs & dt & w' & Hs & Hcase & [_ _ _ Htr]
                                 & _ & _ & Hclock & _).
  inversion Hcase; subst; try congruence;
    try (match goal with H : outlives _ _ |- _ => by rewrite Hc in H end).
  exists msg, w'. split; [done|]. split; [lia | done].
Qed.

Lemma solve_lets_launch_errors_through_witness :
  let w := mkWorld "Linux" demo_tree ∅ ∅ 7 (λ _ _, CannotSpawn) 0 [] 4096 in
  ∃ msg w',
    solve ["setA"; "1.cnf"] w = (Raise (OSError msg), w')
    ∧ clock w' = clock w
    ∧ trace w' = (trace w ++ checks_of (system w) ["setA"; "1.cnf"])%list.
Proof.
  intros w. apply (solve_lets_launch_errors_through ["setA"; "1.cnf"] w).
  - vm_compute. reflexivity.
  - vm_compute. reflexivity.
  - reflexivity.
Defined.

(** The run on which the second launch fails: it ends with that error,
    the first row is in the log, no row stands for the failed launch. *)
Example launch_error_ends_the_run :
  let run := main [["setA"]; ["setB"]] demo_out locked_binary_world in
  run.1 = Raise (OSError "PermissionError")
  ∧ data run.2 !! demo_out = Some ("setA/1.cnf,5" +:+ Csv.lineterminator).
Proof. vm_compute. done. Qed.




(** ** The log and its directory *)

Lemma main_setup_failure (folders : list Path) (out : Path) (w : World) (e : Exn) (w1 : World) :
  open_log out w = (Raise e, w1) → main folders out w = (Raise e, w1).
Proof. intros H. by rewrite main_unfold, H. Qed.

(** A run whose log could be opened: the loops over the enumeration,
    then the file closed unless the harness was killed. *)
Lemma main_decompose (folders : list Path) (out : Path) (w w1 : World) :
  open_log out w = (Ok out, w1) →
  ∃ r w2 w',
    for_ (enumerate (system w) (tree w1) folders) (record_instance out) w1 = (r, w2)
    ∧ main folders out w = (r, w')
    ∧ buffers w1 !! out = Some (mkFile "" "") ∧ written w1 out = ""
    ∧ system w' = system w2 ∧ tree w' = tree w2 ∧ clock w' = clock w2
    ∧ trace w' = trace w2
    ∧ (r ≠ Die → Fs.on_disk w' out = written w2 out)
    ∧ (r = Die → w' = w2).
Proof.
  intros Hopen.
  destruct (open_log_spec out w) as (r1 & w1' & Hopen' & _ & _ & _ & Hr1).
  rewrite Hopen in Hopen'. injection Hopen' as <- <-.
  destruct Hr1 as (_ & Hd1 & Hb1 & _).
  assert (Hbuf : buffers w1 !! out = Some (mkFile "" "")) by (by rewrite Hb1, lookup_insert_eq).
  assert (Hwr : written w1 out = "").
  { unfold written, Fs.on_disk. by rewrite Hbuf, Hd1, lookup_insert_eq. }
  destruct (loop_spec out (enumerate (system w) (tree w1) folders) w1 (mkFile "" "") Hbuf)
    as (r & evs & w2 & Hloop & _ & _ & [b2 Hb2] & _).
  rewrite main_unfold, Hopen. unfold try_finally. rewrite Hloop.
  destruct r as [[]|e|].
  - unfold file_close. rewrite Hb2.
    eexists (Ok tt), w2, _. repeat split; try done.
    intros _. unfold written, Fs.on_disk. simpl. by rewrite lookup_insert_eq, Hb2.
  - unfold file_close. rewrite Hb2.
    eexists (Raise e), w2, _. repeat split; try done.
    intros _. unfold written, Fs.on_disk. simpl. by rewrite lookup_insert_eq, Hb2.
  - exists Die, w2, w2. by repeat split.
Qed.

(** X6: [main] makes the directory of the log with a plain [mkdir]: when
    that directory is missing and its own parent is missing too, or when
    something that is no directory has its name, [main] ends with the
    error of [mkdir]; nothing has been created, run or logged. *)
Theorem main_cannot_make_log_directory (folders : list Path) (out : Path) (w : World) :
  Fs.is_dir (tree w) (PurePath.parent out) = false →
  is_Some (Fs.kind_of (tree w) (PurePath.parent out))
  ∨ Fs.is_dir (tree w) (PurePath.parent (PurePath.parent out)) = false →
  ∃ msg, main folders out w = (Raise (OSError msg), w).
Proof.
  intros Hd Hwhy.
  assert (∃ msg, open_log out w = (Raise (OSError msg), w)) as [msg Hopen].
  { unfold open_log, bind, Path_is_dir, Path_mkdir. rewrite Hd. simpl.
    destruct (decide _) as [Hex|Hnew]; [by eexists|].
    destruct Hwhy as [Hex|Hgp]; [done|]. rewrite Hgp. by eexists. }
  exists msg. by apply main_setup_failure.
Qed.

Lemma main_cannot_make_log_directory_witness :
  ∃ msg, main [["setA"]] ["results"; "today"; "out.csv"] demo_world
         = (Raise (OSError msg), demo_world).
Proof.
  apply (main_cannot_make_log_directory [["setA"]] ["results"; "today"; "out.csv"] demo_world).
  - vm_compute. reflexivity.
  - right. vm_compute. reflexivity.
Defined.

(** A regular file where the directory of the log should be. *)
Example log_directory_is_a_file :
  main [["setA"]] ["plain"; "out.csv"] odd_world
  = (Raise (OSError "FileExistsError"), odd_world).
Proof. vm_compute. reflexivity. Qed.

Lemma open_log_creates (out : Path) (w : World) :
  Fs.kind_of (tree w) (PurePath.parent out) = None →
  Fs.is_dir (tree w) (PurePath.parent (PurePath.parent out)) = true →
  Fs.kind_of (tree w) out = None →
  PurePath.parent out ≠ out →
  ∃ w1, open_log out w = (Ok out, w1)
        ∧ tree w1 = (tree w ++ [(PurePath.parent out, Directory true); (out, RegularFile)])%list.
Proof.
  intros Hp Hgp Ho Hne.
  unfold open_log, bind, Path_is_dir, Path_mkdir.
  assert (Hd : Fs.is_dir (tree w) (PurePath.parent out) = false).
  { unfold Fs.is_dir. by rewrite Hp. }
  rewrite Hd. simpl. rewrite Hp, Hgp.
  rewrite decide_False by (by intros [? ?]).
  unfold Path_open_w, set_tree, Fs.is_dir. simpl.
  rewrite !kind_of_snoc, Ho, Hp.
  rewrite decide_False by done. rewrite decide_True by done.
  eexists. split; [done|]. simpl. by rewrite <- (assoc_L (++)).
Qed.

Lemma main_tree_after_creation (folders : list Path) (out : Path) (w : World) :
  Fs.kind_of (tree w) (PurePath.parent out) = None →
  Fs.is_dir (tree w) (PurePath.parent (PurePath.parent out)) = true →
  Fs.kind_of (tree w) out = None →
  PurePath.parent out ≠ out →
  ∃ r w',
    main folders out w = (r, w')
    ∧ tree w' = (tree w ++ [(PurePath.parent out, Directory true); (out, RegularFile)])%list.
Proof.
  intros Hp Hgp Ho Hne.
  destruct (open_log_creates out w Hp Hgp Ho Hne) as (w1 & Hopen & Htree1).
  destruct (main_decompose folders out w w1 Hopen)
    as (r & w2 & w' & Hloop & Hmain & _ & _ & _ & Htree & _).
  pose proof (for_tree out (enumerate (system w) (tree w1) folders) w1) as [Hft _].
  rewrite Hloop in Hft. simpl in Hft.
  exists r, w'. split; [done|]. by rewrite Htree, Hft, Htree1.
Qed.

(** X7: when the directory of the log is missing, its parent is a
    directory and the log is missing too, [main] creates exactly two
    entries, the directory and then the log, and nothing else: the tree at
    the end of the run, however it ends, is the old tree with these two. *)
Theorem main_creates_directory_and_log (folders : list Path) (out : Path) (w : World) :
  Fs.kind_of (tree w) (PurePath.parent out) = None →
  Fs.is_dir (tree w) (PurePath.parent (PurePath.parent out)) = true →
  Fs.kind_of (tree w) out = None →
  PurePath.parent out ≠ out →
  ∃ r w',
    main folders out w = (r, w')
    ∧ tree w' = (tree w ++ [(PurePath.parent out, Directory true); (out, RegularFile)])%list
    ∧ Fs.is_dir (tree w') (PurePath.parent out) = true
    ∧ Fs.is_file (tree w') out = true.
Proof.
  intros Hp Hgp Ho Hne.
  destruct (main_tree_after_creation folders out w Hp Hgp Ho Hne)
    as (r & w' & Hmain & Htree).
  exists r, w'. split; [done|]. split; [done|].
  rewrite Htree. unfold Fs.is_dir, Fs.is_file.
  change [(PurePath.parent out, Directory true); (out, RegularFile)]
    with ([(PurePath.parent out, Directory true)] ++ [(out, RegularFile)])%list.
  rewrite (assoc_L (++)), !kind_of_snoc, Ho, Hp.
  rewrite decide_True by done. rewrite decide_False by done.
  rewrite decide_True by done. by rewrite bool_decide_eq_true.
Qed.

Lemma main_creates_directory_and_log_witness :
  ∃ r w',
    main [["setA"]; ["setB"]] demo_out demo_world = (r, w')
    ∧ tree w' = (tree demo_world
                 ++ [(PurePath.parent demo_out, Directory true); (demo_out, RegularFile)])%list
    ∧ Fs.is_dir (tree w') (PurePath.parent demo_out) = true
    ∧ Fs.is_file (tree w') demo_out = true.
Proof.
  apply (main_creates_directory_and_log [["setA"]; ["setB"]] demo_out demo_world).
  - vm_compute. reflexivity.
  - vm_compute. reflexivity.
  - vm_compute. reflexivity.
  - vm_compute. intros H. discriminate H.
Defined.

Lemma open_log_existing (out : Path) (w : World) :
  Fs.is_file (tree w) out = true →
  Fs.is_dir (tree w) (PurePath.parent out) = true →
  ∃ w1, open_log out w = (Ok out, w1) ∧ tree w1 = tree w.
Proof.
  intros Hf Hd. unfold Fs.is_file in Hf. apply bool_decide_eq_true in Hf.
  unfold open_log, bind, Path_is_dir, Path_open_w, ret. rewrite Hd. simpl.
  rewrite Hf, Hd. by eexists.
Qed.

(** X8: the log is opened for writing, not for appending: when it exists
    already, whatever it held is gone. After a run that was not killed,
    the file holds the text of the rows of this run and nothing else, and
    the tree is as before. *)
Theorem main_truncates_existing_log (folders : list Path) (out : Path)
    (w : World) (r : Res unit) (w' : World) :
  Fs.is_file (tree w) out = true →
  Fs.is_dir (tree w) (PurePath.parent out) = true →
  main folders out w = (r, w') →
  r ≠ Die →
  ∃ evs,
    trace w' = (trace w ++ evs)%list
    ∧ Fs.on_disk w' out = csv_text (rows_of evs)
    ∧ tree w' = tree w.
Proof.
  intros Hf Hd Hrun Hlive.
  destruct (open_log_existing out w Hf Hd) as (w1 & Hopen & Htree1).
  destruct (open_log_spec out w) as (r1 & w1' & Hopen' & _ & _ & Htr1 & _).
  rewrite Hopen in Hopen'. injection Hopen' as <- <-.
  destruct (main_decompose folders out w w1 Hopen)
    as (r2 & w2 & w'' & Hloop & Hmain & Hbuf & Hwr1 & _ & Htree & _ & Htr & Hdisk & _).
  rewrite Hrun in Hmain. injection Hmain as <- <-.
  destruct (loop_spec out (enumerate (system w) (tree w1) folders) w1 (mkFile "" "") Hbuf)
    as (r3 & evs & w3 & Hloop' & [_ Htree3 _ Htr3] & _ & _ & Hwr & _).
  rewrite Hloop in Hloop'. injection Hloop' as <- <-.
  exists evs. split; [by rewrite Htr, Htr3, Htr1|]. split.
  - rewrite Hdisk by done. by rewrite Hwr, Hwr1.
  - by rewrite Htree, Htree3.
Qed.

Lemma main_truncates_existing_log_witness :
  let run := main [["results"]] ["results"; "out.csv"] odd_world in
  ∃ evs,
    trace run.2 = (trace odd_world ++ evs)%list
    ∧ Fs.on_disk run.2 ["results"; "out.csv"] = csv_text (rows_of evs)
    ∧ tree run.2 = tree odd_world.
Proof.
  intros run.
  apply (main_truncates_existing_log [["results"]] ["results"; "out.csv"] odd_world
           run.1 run.2).
  - vm_compute. reflexivity.
  - vm_compute. reflexivity.
  - vm_compute. reflexivity.
  - vm_compute. intros H. discriminate H.
Defined.

(** A run over a folder without instances empties the old log. *)
Example old_log_is_emptied :
  let run := main [["results"]] ["results"; "out.csv"] odd_world in
  data odd_world !! ["results"; "out.csv"] = Some "old text"
  ∧ run.1 = Ok tt
  ∧ data run.2 !! ["results"; "out.csv"] = Some "".
Proof. vm_compute. done. Qed.

(** ** Runs that are cut short *)

Lemma loop_trace_prefix (sys : string) (t : list (Path * Kind)) (l : list Path)
    (r : Res unit) (evs : list Event) :
  LoopTrace sys t l r evs →
  ∃ (done : list Path) (times : list (option Z)),
    done `prefix_of` l
    ∧ length times = length done
    ∧ rows_of evs = zip_with row_of done times
    ∧ (r = Ok tt → done = l).
Proof.
  induction 1 as [|i l st r evs Hi Hb H (done & times & Hpre & Hlen & Hrows & Hall)
                  |i l msg Hi|i l msg Hb|i l msg Hb|i l Hb].
  - exists [], []. repeat split; try done.
  - exists (i :: done), (st :: times). simpl. repeat split.
    + by apply prefix_cons.
    + by rewrite Hlen.
    + by rewrite Hrows.
    + intros Hr. by rewrite Hall.
  - exists [], []. repeat split; try done. apply prefix_nil.
  - exists [], []. repeat split; try done. apply prefix_nil.
  - exists [], []. repeat split; try done. apply prefix_nil.
  - exists [], []. repeat split; try done. apply prefix_nil.
Qed.

(** X9: however a run ends, the rows written are the rows of the first
    instances of the enumeration, in order, one each: a run that is cut
    short has skipped nothing and reordered nothing. Unless the harness
    was killed, these rows are all in the log (or the log was never
    opened, and no row was written). *)
Theorem rows_are_a_prefix (folders : list Path) (out : Path)
    (w : World) (r : Res unit) (w' : World) :
  main folders out w = (r, w') →
  ∃ evs (done : list Path) (times : list (option Z)),
    trace w' = (trace w ++ evs)%list
    ∧ done `prefix_of` enumerate (system w) (tree w') folders
    ∧ length times = length done
    ∧ rows_of evs = zip_with row_of done times
    ∧ (r = Ok tt → done = enumerate (system w) (tree w') folders)
    ∧ (r ≠ Die →
       data w' = data w ∧ rows_of evs = []
       ∨ Fs.on_disk w' out = csv_text (rows_of evs)).
Proof.
  intros Hrun.
  destruct (main_spec _ _ _ _ _ Hrun) as
    (_ & _ & [([m ->] & Htr & Hd)|(evs & Htr & Hlt & _ & Hdisk & _)]).
  - exists [], [], []. rewrite app_nil_r. repeat split; try done.
    + apply prefix_nil.
    + intros _. by left.
  - destruct (loop_trace_prefix _ _ _ _ _ Hlt) as (done & times & Hpre & Hlen & Hrows & Hall).
    exists evs, done, times. repeat split; try done.
    intros Hlive. right. by apply Hdisk.
Qed.

(** The run that stops at a directory named like an instance: the row
    of the instance before it is in the log, the one after it is not
    run. *)
Example run_stops_at_directory :
  let run := main [["setA"]] ["results"; "out.csv"] odd_world in
  enumerate (system odd_world) (tree run.2) [["setA"]]
  = [["setA"; "1.cnf"]; ["setA"; "dir.cnf"]; ["setA"; "2.cnf"]]
  ∧ run.1 = Raise (AssertionError "Instance file 'setA/dir.cnf' does not exist.")
  ∧ data run.2 !! ["results"; "out.csv"] = Some ("setA/1.cnf,2" +:+ Csv.lineterminator)
  ∧ length (spawns_of (trace run.2)) = 1%nat.
Proof. vm_compute. done. Qed.

Lemma rows_are_a_prefix_witness :
  let run := main [["setA"]] ["results"; "out.csv"] odd_world in
  ∃ evs (done : list Path) (times : list (option Z)),
    trace run.2 = (trace odd_world ++ evs)%list
    ∧ done `prefix_of` enumerate (system odd_world) (tree run.2) [["setA"]]
    ∧ length times = length done
    ∧ rows_of evs = zip_with row_of done times
    ∧ (run.1 = Ok tt → done = enumerate (system odd_world) (tree run.2) [["setA"]])
    ∧ (run.1 ≠ Die →
       data run.2 = data odd_world ∧ rows_of evs = []
       ∨ Fs.on_disk run.2 ["results"; "out.csv"] = csv_text (rows_of evs)).
Proof.
  intros run.
  apply (rows_are_a_prefix [["setA"]] ["results"; "out.csv"] odd_world run.1 run.2).
  vm_compute. reflexivity.
Defined.

(** ** What is launched *)

Lemma loop_trace_spawns (sys : string) (t : list (Path * Kind)) (l : list Path)
    (r : Res unit) (evs : list Event) :
  LoopTrace sys t l r evs →
  Forall (λ s, ∃ i, i ∈ l ∧ s = (argv_of sys i, 30)) (spawns_of evs)
  ∧ (length (rows_of evs) ≤ length (spawns_of evs) ≤ S (length (rows_of evs)))%nat
  ∧ (r = Ok tt → length (spawns_of evs) = length (rows_of evs))
  ∧ (spawns_of evs ≠ [] → Fs.is_file t (executable_path_on sys) = true).
Proof.
  induction 1 as [|i l st r evs Hi Hb H (IH1 & IH2 & IH3 & IH4)
                  |i l msg Hi|i l msg Hb|i l msg Hb|i l Hb]; simpl.
  - repeat split; try done; lia.
  - repeat split; try done; try lia.
    + constructor.
      * exists i. split; [apply list_elem_of_here | done].
      * eapply Forall_impl; [exact IH1|]. intros s (j & Hj & ->).
        exists j. split; [by apply list_elem_of_further | done].
    + intros Hok. by rewrite IH3.
  - repeat split; try done; lia.
  - repeat split; try done; lia.
  - repeat split; try done; lia.
  - repeat split; try done; try lia.
    constructor; [|done]. exists i. split; [apply list_elem_of_here | done].
Qed.

(** X10: the only thing a run ever launches is the solver binary with
    one enumerated instance as its single argument, under the timeout of
    30 seconds, and only when the binary is a file. A row is written only
    after a launch, and no second launch comes before the row of the
    first: there are as many rows as launches, or one less; in a run that
    ends normally there are as many. *)
Theorem launches_are_solver_on_instances (folders : list Path) (out : Path)
    (w : World) (r : Res unit) (w' : World) :
  main folders out w = (r, w') →
  ∃ evs,
    trace w' = (trace w ++ evs)%list
    ∧ Forall (λ s, ∃ i, i ∈ enumerate (system w) (tree w') folders
                        ∧ s = (argv_of (system w) i, seconds TIMEOUT))
        (spawns_of evs)
    ∧ (length (rows_of evs) ≤ length (spawns_of evs) ≤ S (length (rows_of evs)))%nat
    ∧ (r = Ok tt → length (spawns_of evs) = length (rows_of evs))
    ∧ (spawns_of evs ≠ [] →
       Fs.is_file (tree w') (executable_path_on (system w)) = true).
Proof.
  intros Hrun.
  destruct (main_spec _ _ _ _ _ Hrun) as
    (_ & _ & [([m ->] & Htr & Hd)|(evs & Htr & Hlt & _)]).
  - exists []. rewrite app_nil_r. repeat split; try done; simpl; lia.
  - exists evs. split; [done|]. by apply loop_trace_spawns.
Qed.

Lemma launches_are_solver_on_instances_witness :
  let run := main [["setA"]] demo_out killed_world in
  ∃ evs,
    trace run.2 = (trace killed_world ++ evs)%list
    ∧ Forall (λ s, ∃ i, i ∈ enumerate (system killed_world) (tree run.2) [["setA"]]
                        ∧ s = (argv_of (system killed_world) i, seconds TIMEOUT))
        (spawns_of evs)
    ∧ (length (rows_of evs) ≤ length (spawns_of evs) ≤ S (length (rows_of evs)))%nat
    ∧ (run.1 = Ok tt → length (spawns_of evs) = length (rows_of evs))
    ∧ (spawns_of evs ≠ [] →
       Fs.is_file (tree run.2) (executable_path_on (system killed_world)) = true).
Proof.
  intros run.
  apply (launches_are_solver_on_instances [["setA"]] demo_out killed_world run.1 run.2).
  vm_compute. reflexivity.
Defined.

(** ** When a run ends normally *)

Lemma loop_trace_ok_files (sys : string) (t : list (Path * Kind)) (l : list Path)
    (evs : list Event) :
  LoopTrace sys t l (Ok tt) evs →
  Forall (λ i, Fs.is_file t i = true) l
  ∧ (l ≠ [] → Fs.is_file t (executable_path_on sys) = true).
Proof.
  intros H. remember (Ok tt) as r eqn:Hr.
  induction H as [|i l st r evs Hi Hb H IH| | | |]; try discriminate.
  - by split.
  - destruct (IH Hr) as [Hall _]. split; [by constructor | done].
Qed.

(** X11: a run ends normally only if the log is a regular file, every
    enumerated entry is one and, when there is an entry at all, so is the
    solver binary; and then the solver has been launched on every entry,
    in the order of the enumeration. A directory named like an instance,
    or a missing binary with work to do, is enough to end the run with an
    error; a missing binary with nothing to do is not. *)
Theorem normal_end_needs_files (folders : list Path) (out : Path) (w w' : World) :
  main folders out w = (Ok tt, w') →
  Fs.is_file (tree w') out = true
  ∧ Forall (λ i, Fs.is_file (tree w') i = true) (enumerate (system w) (tree w') folders)
  ∧ (enumerate (system w) (tree w') folders ≠ [] →
     Fs.is_file (tree w') (executable_path_on (system w)) = true)
  ∧ spawns_of (trace w')
    = (spawns_of (trace w)
       ++ ((λ i, (argv_of (system w) i, seconds TIMEOUT))
             <$> enumerate (system w) (tree w') folders))%list.
Proof.
  intros Hrun.
  destruct (main_spec _ _ _ _ _ Hrun) as
    (_ & _ & [([m Hm] & _)|(evs & Htr & Hlt & _ & _ & Hfile & _)]); [done|].
  destruct (loop_trace_ok_files _ _ _ _ Hlt) as [Hall Hbin].
  destruct (loop_trace_ok _ _ _ _ Hlt) as (times & _ & _ & Hsp & _).
  repeat split; try done.
  by rewrite Htr, spawns_of_app, Hsp.
Qed.

Lemma normal_end_needs_files_witness :
  let w' := (main [["setA"]; ["setB"]] demo_out demo_world).2 in
  Fs.is_file (tree w') demo_out = true
  ∧ Forall (λ i, Fs.is_file (tree w') i = true)
      (enumerate (system demo_world) (tree w') [["setA"]; ["setB"]])
  ∧ (enumerate (system demo_world) (tree w') [["setA"]; ["setB"]] ≠ [] →
     Fs.is_file (tree w') (executable_path_on (system demo_world)) = true)
  ∧ spawns_of (trace w')
    = (spawns_of (trace demo_world)
       ++ ((λ i, (argv_of (system demo_world) i, seconds TIMEOUT))
             <$> enumerate (system demo_world) (tree w') [["setA"]; ["setB"]]))%list.
Proof.
  intros w'.
  apply (normal_end_needs_files [["setA"]; ["setB"]] demo_out demo_world w').
  vm_compute. reflexivity.
Defined.

(** A missing binary with nothing to do: the run ends normally. *)
Example binary_missing_nothing_to_do :
  (main [["empty"]] demo_out unbuilt_world).1 = Ok tt
  ∧ Fs.is_file (tree unbuilt_world) (executable_path_on (system unbuilt_world)) = false.
Proof. vm_compute. done. Qed.

(** ** What is enumerated *)

Lemma fnmatch_cnf_unfold (s : string) :
  PurePath.fnmatch "*.cnf" s
  = PurePath.fnmatch ".cnf" s
    || match s with
       | EmptyString => false
       | String _ s' => PurePath.fnmatch "*.cnf" s'
       end.
Proof. by destruct s. Qed.

Lemma fnmatch_cnf_literal (s : string) :
  PurePath.fnmatch ".cnf" s = true ↔ s = ".cnf".
Proof.
  split; [|by intros ->].
  destruct s as [|a [|b [|c [|d [|e s]]]]]; simpl; try done;
    rewrite ?andb_true_iff, ?bool_decide_eq_true; intros H; destruct_and?;
    by simplify_eq.
Qed.

Lemma fnmatch_cnf (s : string) :
  PurePath.fnmatch "*.cnf" s = true ↔ ends_with ".cnf" s.
Proof.
  split.
  - induction s as [|c s IH]; rewrite fnmatch_cnf_unfold, orb_true_iff.
    + intros [H|H]; [|done]. by apply fnmatch_cnf_literal in H.
    + intros [H|H].
      * apply fnmatch_cnf_literal in H. exists "". by rewrite H.
      * destruct (IH H) as [stem ->]. by exists (String c stem).
  - intros [stem ->]. induction stem as [|c stem IH]; [done|].
    rewrite string_app_cons, fnmatch_cnf_unfold, IH. apply orb_true_r.
Qed.

Lemma path_parent_name (p d : Path) :
  PurePath.parent p = d → p ≠ d → p = PurePath.joinpath d (PurePath.name p).
Proof.
  unfold PurePath.parent, PurePath.name, PurePath.joinpath.
  destruct (decide (p = PurePath.root)) as [->|Hroot]; [congruence|].
  intros <- Hne. destruct p as [|x p]; [done|].
  by apply app_removelast_last.
Qed.

Lemma compile_pattern_cnf (sys : string) (n : string) :
  Fs.compile_pattern sys "*.cnf" n = true
  ↔ ends_with ".cnf" (if decide (sys = "Windows") then PurePath.casefold n else n).
Proof.
  unfold Fs.compile_pattern. destruct (decide (sys = "Windows")).
  - change (PurePath.casefold "*.cnf") with "*.cnf". apply fnmatch_cnf.
  - apply fnmatch_cnf.
Qed.

(** X12: the enumeration is by name and by place, not by kind: every
    enumerated path is an entry of the tree, lies directly in one of the
    given folders, which is a readable directory, and has a name that ends
    with [.cnf]; on Windows the case of the letters of the name is not
    looked at, elsewhere it is. Nothing is found in subdirectories, and
    nothing is asked about the entry being a file. *)
Theorem enumerated_are_cnf_children (sys : string) (t : list (Path * Kind))
    (folders : list Path) (i : Path) :
  i ∈ enumerate sys t folders →
  ∃ d n k,
    d ∈ folders
    ∧ Fs.kind_of t d = Some (Directory true)
    ∧ i = PurePath.joinpath d n
    ∧ PurePath.parent i = d
    ∧ ends_with ".cnf" (if decide (sys = "Windows") then PurePath.casefold n else n)
    ∧ (i, k) ∈ t.
Proof.
  intros Hi. apply list_elem_of_In, in_flat_map in Hi as (d & Hd & Hi).
  apply list_elem_of_In in Hd, Hi. unfold Fs.glob in Hi.
  destruct (Fs.kind_of t d) as [[|[]]|] eqn:Hk; try by apply not_elem_of_nil in Hi.
  apply list_elem_of_fmap in Hi as (n & -> & Hn).
  apply list_elem_of_In, filter_In in Hn as [Hn Hmatch].
  apply list_elem_of_In in Hn. unfold Fs.scandir in Hn.
  apply list_elem_of_omap in Hn as ([p k] & Hp & Hsome). simpl in Hsome.
  destruct (decide _) as [[Hparent Hne]|]; [|done]. injection Hsome as <-.
  pose proof (path_parent_name p d Hparent Hne) as Hjoin.
  exists d, (PurePath.name p), k. rewrite <- Hjoin.
  repeat split; try done. by apply compile_pattern_cnf.
Qed.

Lemma enumerated_are_cnf_children_witness :
  ∃ d n k,
    d ∈ [["setA"]]
    ∧ Fs.kind_of mixed_case_tree d = Some (Directory true)
    ∧ ["setA"; "B.CNF"] = PurePath.joinpath d n
    ∧ PurePath.parent ["setA"; "B.CNF"] = d
    ∧ ends_with ".cnf"
        (if decide ("Windows" = "Windows") then PurePath.casefold n else n)
    ∧ (["setA"; "B.CNF"], k) ∈ mixed_case_tree.
Proof.
  apply (enumerated_are_cnf_children "Windows" mixed_case_tree [["setA"]] ["setA"; "B.CNF"]).
  vm_compute. apply list_elem_of_further, list_elem_of_here.
Defined.

(** Files in a subdirectory, and files with another ending, are left
    out; a directory with the right ending is taken. *)
Example enumeration_is_flat :
  let t := (odd_tree ++ [(["setA"; "dir.cnf"; "deep.cnf"], RegularFile);
                         (["setA"; "3.cnf.bak"], RegularFile)])%list in
  enumerate "Linux" t [["setA"]]
  = [["setA"; "1.cnf"]; ["setA"; "dir.cnf"]; ["setA"; "2.cnf"]].
Proof. vm_compute. reflexivity. Qed.

(** Names in capitals are instances on Windows only. *)
Example enumeration_and_case :
  enumerate "Linux" mixed_case_tree [["setA"]] = [["setA"; "a.cnf"]]
  ∧ enumerate "Windows" mixed_case_tree [["setA"]]
    = [["setA"; "a.cnf"]; ["setA"; "B.CNF"]; ["setA"; "c.Cnf"]]
  ∧ PurePath.casefold "B.CNF" = "b.cnf".
Proof. vm_compute. done. Qed.

(** ** Exit codes are not looked at *)

Lemma blind_bind {A B} (m : M A) (k : A → M B) :
  Blind m → (∀ a, Blind (k a)) → Blind (bind m k).
Proof.
  intros Hm Hk w. unfold bind. rewrite Hm.
  destruct (m w) as [[a|e|] w1]; simpl; [apply Hk | done | done].
Qed.

Lemma blind_for {A} (l : list A) (body : A → M unit) :
  (∀ x, Blind (body x)) → Blind (for_ l body).
Proof.
  intros Hbody. induction l as [|x l IH]; [done|].
  cbn [for_]. by apply blind_bind.
Qed.

Lemma blind_try_except {A} (body handler : M A) :
  Blind body → Blind handler → Blind (try_except_TimeoutExpired body handler).
Proof.
  intros Hb Hh w. unfold try_except_TimeoutExpired. rewrite Hb.
  destruct (body w) as [[a|[]|] w1]; simpl; first [done | apply Hh].
Qed.

Lemma blind_try_finally {A} (body : M A) (cleanup : M unit) :
  Blind body → Blind cleanup → Blind (try_finally body cleanup).
Proof.
  intros Hb Hc w. unfold try_finally. rewrite Hb.
  destruct (body w) as [[a|e|] w1]; simpl; try done.
  - rewrite Hc. by destruct (cleanup w1) as [[[]|e|] w2].
  - rewrite Hc. by destruct (cleanup w1) as [[[]|e'|] w2].
Qed.

(** The call of [subprocess.run] in [solve]: its result is dropped. *)
Lemma blind_run_dropped {A} (argv : list string) (timeout : Z) (k : M A) :
  Blind k → Blind (bind (subprocess_run argv timeout) (λ _, k)).
Proof.
  intros Hk w. unfold bind, subprocess_run. simpl.
  destruct (children w (spawned w) argv) as [launch ns late code|launch late| |];
    simpl; try done.
  destruct (decide _); simpl; [|done].
  exact (Hk (advance (Z.of_N launch + Z.of_N ns + Z.of_N late)
               (log (ESpawn argv timeout) (count_spawn w)))).
Qed.

Lemma blind_is_file (p : Path) : Blind (Path_is_file p).
Proof. done. Qed.

Lemma blind_assert (b : bool) (msg : string) : Blind (assert_ b msg).
Proof. by destruct b. Qed.

Lemma blind_get_executable_path : Blind get_executable_path.
Proof. done. Qed.

Lemma blind_solve (i : Path) : Blind (solve i).
Proof.
  unfold solve.
  apply blind_bind; [done|]. intros sys.
  apply blind_bind; [apply blind_is_file|]. intros is_inst.
  apply blind_bind; [apply blind_assert|]. intros _.
  apply blind_bind; [apply blind_get_executable_path|]. intros solver_binary.
  apply blind_bind; [apply blind_is_file|]. intros is_bin.
  apply blind_bind; [apply blind_assert|]. intros _.
  apply blind_try_except; [|done].
  apply blind_bind; [done|]. intros start.
  apply blind_run_dropped.
  apply blind_bind; [done|]. by intros stop.
Qed.

Lemma blind_file_write (f : Path) (s : string) : Blind (file_write f s).
Proof.
  intros w. unfold file_write. simpl.
  destruct (buffers w !! f) as [o|]; [|done].
  change (Fs.buffer_size (forget_returncodes w)) with (Fs.buffer_size w).
  change (Fs.on_disk (forget_returncodes w) f) with (Fs.on_disk w f).
  destruct (decide (pending o ≠ "" ∧ _)).
  - destruct (buffered_write _ _ _ _) as [d1 r1].
    destruct (decide _); [|done]. by destruct (buffered_write _ _ _ _).
  - destruct (decide _); [|done]. by destruct (buffered_write _ _ _ _).
Qed.

Lemma blind_writerow (f : Path) (row : list string) : Blind (writerow f row).
Proof. apply blind_bind; [apply blind_file_write|]. by intros _. Qed.

Lemma blind_file_close (f : Path) : Blind (file_close f).
Proof. intros w. unfold file_close. simpl. by destruct (buffers w !! f). Qed.

Lemma blind_open_w (p : Path) : Blind (Path_open_w p).
Proof.
  intros w. unfold Path_open_w. simpl.
  destruct (Fs.kind_of (tree w) p) as [[|rd]|]; try done;
    by destruct (Fs.is_dir (tree w) (PurePath.parent p)).
Qed.

Lemma blind_mkdir (p : Path) : Blind (Path_mkdir p).
Proof.
  intros w. unfold Path_mkdir. simpl.
  destruct (decide _); [done|].
  by destruct (Fs.is_dir (tree w) (PurePath.parent p)).
Qed.

Lemma blind_main (folders : list Path) (out : Path) : Blind (main folders out).
Proof.
  unfold main, with_open_w, tqdm.
  apply blind_bind; [done|]. intros has_dir.
  apply blind_bind.
  { destruct (negb has_dir); [apply blind_mkdir | done]. }
  intros _. apply blind_bind; [apply blind_open_w|]. intros f.
  apply blind_try_finally; [|apply blind_file_close].
  apply blind_for. intros folder.
  apply blind_bind; [done|]. intros instances.
  apply blind_for. intros instance_file.
  apply blind_bind; [apply blind_solve|]. intros solve_time.
  apply blind_writerow.
Qed.

(** X13: the exit codes of the children are not looked at. A run in the
    world where every exit code is replaced by 0 ends the same way,
    writes the same rows to the same log and takes the same time: what a
    run does depends on when the children exit, not on how. *)
Theorem run_ignores_exit_codes (folders : list Path) (out : Path) (w : World) :
  let run := main folders out w in
  let run0 := main folders out (forget_returncodes w) in
  run0.1 = run.1
  ∧ run0.2 = forget_returncodes run.2
  ∧ trace run0.2 = trace run.2
  ∧ data run0.2 = data run.2
  ∧ tree run0.2 = tree run.2
  ∧ clock run0.2 = clock run.2.
Proof.
  intros run run0. unfold run0, run. rewrite (blind_main folders out w).
  by repeat split.
Qed.

(** The children of the sample world fail or succeed; with every exit
    code 0 the rows are the same. *)
Example rows_without_exit_codes :
  rows_of (trace (main [["setA"]; ["setB"]] demo_out (forget_returncodes demo_world)).2)
  = [["setA/1.cnf"; "5"]; ["setA/2.cnf"; "None"]; ["setB/1.cnf"; "0"]]
  ∧ demo_children 2 [] = Exits 300000 400000 200000 1.
Proof. vm_compute. done. Qed.

(** ** The text of a row *)

Lemma needs_quotes_app (a b : string) :
  Csv.needs_quotes (a +:+ b) = Csv.needs_quotes a || Csv.needs_quotes b.
Proof.
  induction a as [|c a IH]; [done|].
  rewrite string_app_cons. simpl. rewrite IH. by rewrite !orb_assoc.
Qed.

Lemma digit_needs_no_quotes (x : N) (s : string) :
  Csv.needs_quotes (String (pretty_N_char x) s) = Csv.needs_quotes s.
Proof. unfold pretty_N_char. by repeat case_match. Qed.

Lemma pretty_N_go_needs_no_quotes (x : N) (s : string) :
  Csv.needs_quotes s = false → Csv.needs_quotes (pretty_N_go x s) = false.
Proof.
  revert s. induction (N.lt_wf_0 x) as [x _ IH]; intros s Hs.
  destruct (decide (x = 0%N)) as [->|Hpos].
  - by rewrite pretty_N_go_0.
  - rewrite pretty_N_go_step by lia. apply IH.
    + apply N.div_lt; lia.
    + by rewrite digit_needs_no_quotes.
Qed.

Lemma pretty_Z_needs_no_quotes (z : Z) : Csv.needs_quotes (pretty z) = false.
Proof.
  destruct z as [|p|p]; unfold pretty, pretty_Z.
  - done.
  - unfold pretty, pretty_positive, pretty, pretty_N.
    case_decide; [done|]. by apply pretty_N_go_needs_no_quotes.
  - rewrite needs_quotes_app.
    unfold pretty, pretty_positive, pretty, pretty_N.
    case_decide; [done|]. by rewrite pretty_N_go_needs_no_quotes.
Qed.

(** X14: the text of a row is the path field, a comma, the time and a
    carriage return and line feed. The time, a decimal number or [None],
    is never quoted; the path is written as it is unless it holds a
    comma, a quote or a line break, in which case it is put in quotes. *)
Theorem row_text (i : Path) (solve_time : option Z) :
  Csv.line (row_of i solve_time)
  = Csv.field (PurePath.as_posix i) +:+ "," +:+ str_optional_int solve_time
    +:+ Csv.lineterminator
  ∧ Csv.field (str_optional_int solve_time) = str_optional_int solve_time
  ∧ (Csv.needs_quotes (PurePath.as_posix i) = false →
     Csv.line (row_of i solve_time)
     = PurePath.as_posix i +:+ "," +:+ str_optional_int solve_time
       +:+ Csv.lineterminator).
Proof.
  assert (Hbare : Csv.field (str_optional_int solve_time) = str_optional_int solve_time).
  { unfold Csv.field. destruct solve_time as [d|]; [|done].
    simpl. by rewrite pretty_Z_needs_no_quotes. }
  assert (Hline : Csv.line (row_of i solve_time)
                  = Csv.field (PurePath.as_posix i) +:+ "," +:+ str_optional_int solve_time
                    +:+ Csv.lineterminator).
  { unfold Csv.line, row_of. simpl. rewrite Hbare.
    by rewrite !string_app_assoc. }
  split; [done|]. split; [done|].
  intros Hplain. rewrite Hline. unfold Csv.field. by rewrite Hplain.
Qed.

Example row_text_examples :
  Csv.line (row_of ["setA"; "1.cnf"] (Some 5)) = "setA/1.cnf,5" +:+ Csv.lineterminator
  ∧ Csv.line (row_of ["set,A"; "1.cnf"] None)
    = String Csv.quotechar ("set,A/1.cnf" +:+ String Csv.quotechar ",None")
      +:+ Csv.lineterminator.
Proof. vm_compute. done. Qed.

(** ** The script with its default log *)

(** X16: started without [--output_file] and with at least one folder,
    the script writes to [results/benchmark-<seconds>.csv] under the
    current directory. When the current directory has no [results] yet,
    the run creates that directory and the log, and nothing else, however
    it ends. *)
Theorem script_default_log (t : Q) (folders : list Path) (w : World) :
  folders ≠ [] →
  Fs.is_dir (tree w) [] = true →
  Fs.kind_of (tree w) ["results"] = None →
  Fs.kind_of (tree w) (default_output_file t) = None →
  ∃ r w',
    script t None folders w = (Finished r, w')
    ∧ default_output_file t
      = ["results"; "benchmark-" +:+ pretty (int_of_real t) +:+ ".csv"]
    ∧ tree w' = (tree w ++ [(["results"], Directory true);
                            (default_output_file t, RegularFile)])%list.
Proof.
  intros Hsome Hcwd Hres Hlog.
  pose proof (default_output_file_parts t) as Hparts.
  assert (Hparent : PurePath.parent (default_output_file t) = ["results"]).
  { rewrite Hparts. unfold PurePath.parent. by rewrite decide_False. }
  destruct (main_tree_after_creation folders (default_output_file t) w)
    as (r & w' & Hmain & Htree).
  - by rewrite Hparent.
  - by rewrite Hparent.
  - done.
  - rewrite Hparent, Hparts. discriminate.
  - exists r, w'. unfold script. destruct folders as [|d folders]; [done|].
    simpl. rewrite Hmain. split; [done|]. split; [done|].
    by rewrite Htree, Hparent.
Qed.

Lemma script_default_log_witness :
  ∃ r w',
    script (17000000002 # 10) None [["setA"]] demo_world = (Finished r, w')
    ∧ default_output_file (17000000002 # 10)
      = ["results"; "benchmark-" +:+ pretty (int_of_real (17000000002 # 10)) +:+ ".csv"]
    ∧ tree w' = (tree demo_world
                 ++ [(["results"], Directory true);
                     (default_output_file (17000000002 # 10), RegularFile)])%list.
Proof.
  apply (script_default_log (17000000002 # 10) [["setA"]] demo_world).
  - intros H. discriminate H.
  - vm_compute. reflexivity.
  - vm_compute. reflexivity.
  - vm_compute. reflexivity.
Defined.

(** Without a folder the script stops at the command line: status 2,
    and no log. *)
Example script_without_folders :
  script (17000000002 # 10) None [] demo_world = (UsageError, demo_world)
  ∧ exit_status UsageError = 2.
Proof. done. Qed.
